(** * Topic-message reassembly (hiero_sdk_python/consensus/topic_message.py)

    A shallow embedding of [TopicMessageChunk], [TopicMessage.of_single],
    [TopicMessage.of_many], [TopicMessage.from_proto] and
    [TopicMessage.__str__], followed by the properties of the reassembly
    that the specification states. *)

From Stdlib Require Import ZArith NArith List Bool Lia Permutation Sorted.
From Stdlib.Strings Require Import String Ascii Byte.
From Stdlib Require Import DecimalString.
Import ListNotations.

Local Open Scope Z_scope.

(** ** Python values used by the module *)

(** [bytes] and [bytearray] objects: finite sequences of octets. *)
Definition bytes := list byte.

(** A [bytes] literal whose characters are all ASCII, [b"AB"]. *)
Definition b (s : string) : bytes := list_byte_of_string s.

(** [str(n)] for a Python [int]: decimal digits, with a leading minus sign
    for negative numbers. *)
Definition str_int (n : Z) : string := NilZero.string_of_int (Z.to_int n).

(** The exceptions the module can raise. *)
Inductive PyError : Type :=
| ValueError (msg : string)
| AttributeError (attr : string)
| IndexError (msg : string).

(** The outcome of a call: a returned value or a raised exception. *)
Inductive PyResult (A : Type) : Type :=
| Ok (a : A)
| Raise (e : PyError).
Arguments Ok {A} a.
Arguments Raise {A} e.

Definition bind {A B : Type} (m : PyResult A) (k : A -> PyResult B) : PyResult B :=
  match m with
  | Ok a => k a
  | Raise e => Raise e
  end.

Notation "x <- m ;; k" := (bind m (fun x => k))
  (at level 61, m at next level, right associativity).

(** ** The protobuf records read by the module

    The generated classes of [consensus_service_pb2] and of the basic
    types are not part of the module; the records below carry the fields
    the protobuf definitions declare.  A sub-message that may be unset is
    an [option]:
    [HasField] tests it, and reading through an unset sub-message yields the
    default instance, whose numeric fields are 0. *)

Record Timestamp : Type := mkTimestamp {
  seconds : Z;
  nanos : Z
}.

Record AccountID : Type := mkAccountID {
  shardNum : Z;
  realmNum : Z;
  accountNum : Z
}.

Record TransactionID : Type := mkTransactionID {
  transactionValidStart : Timestamp;
  accountID : AccountID;
  scheduled : bool;
  nonce : Z
}.

Record ConsensusMessageChunkInfo : Type := mkChunkInfo {
  initialTransactionID : option TransactionID;
  number : Z;
  total : Z
}.

Record ConsensusTopicResponse : Type := mkResponse {
  consensusTimestamp : Timestamp;
  message : bytes;
  runningHash : bytes;
  sequenceNumber : Z;
  chunkInfo : option ConsensusMessageChunkInfo
}.

(** [response.HasField("chunkInfo")] *)
Definition HasField_chunkInfo (response : ConsensusTopicResponse) : bool :=
  match chunkInfo response with
  | Some _ => true
  | None => false
  end.

(** [response.chunkInfo.HasField("initialTransactionID")] *)
Definition HasField_initialTransactionID (response : ConsensusTopicResponse) : bool :=
  match chunkInfo response with
  | Some ci =>
      match initialTransactionID ci with
      | Some _ => true
      | None => false
      end
  | None => false
  end.

(** [r.chunkInfo.number] *)
Definition chunkInfo_number (r : ConsensusTopicResponse) : Z :=
  match chunkInfo r with
  | Some ci => number ci
  | None => 0
  end.

(** [response.chunkInfo.total] *)
Definition chunkInfo_total (response : ConsensusTopicResponse) : Z :=
  match chunkInfo response with
  | Some ci => total ci
  | None => 0
  end.

(** [response.chunkInfo.initialTransactionID], where it is set. *)
Definition chunkInfo_initialTransactionID (response : ConsensusTopicResponse)
  : option TransactionID :=
  match chunkInfo response with
  | Some ci => initialTransactionID ci
  | None => None
  end.

(** Attribute access by name on a response, for the integer-valued fields.
    A protobuf message has exactly the attributes its fields declare; any
    other name raises [AttributeError].  The sequence number is declared as
    [sequenceNumber], the name [TopicMessageChunk.__init__] and [of_many]
    read it by. *)
Definition getattr_int (response : ConsensusTopicResponse) (name : string)
  : PyResult Z :=
  if String.eqb name "sequenceNumber" then Ok (sequenceNumber response)
  else Raise (AttributeError name).

(** Attribute access by name on a transaction id, for the integer-valued
    fields.  The shard, realm and account numbers are fields of the
    [accountID] sub-message; the transaction id itself declares no
    attribute of these names. *)
Definition TransactionID_getattr_int (tx_id : TransactionID) (name : string)
  : PyResult Z :=
  if String.eqb name "nonce" then Ok (nonce tx_id)
  else Raise (AttributeError name).

(** The f-string shared by [of_single] and [of_many]:
    [f"{tx_id.shardNum}.{tx_id.realmNum}.{tx_id.accountNum}-{seconds}.{nanos}"],
    its fields read from left to right. *)
Definition format_transaction_id (tx_id : TransactionID) : PyResult string :=
  shard <- TransactionID_getattr_int tx_id "shardNum" ;;
  realm <- TransactionID_getattr_int tx_id "realmNum" ;;
  account <- TransactionID_getattr_int tx_id "accountNum" ;;
  Ok (str_int shard ++ "." ++ str_int realm ++ "." ++ str_int account ++ "-"
      ++ str_int (seconds (transactionValidStart tx_id)) ++ "."
      ++ str_int (nanos (transactionValidStart tx_id)))%string.

(** The text the specification gives a descriptor,
    shard.realm.account-seconds.nanos, the three numbers being those of
    the account of the descriptor. *)
Definition specified_transaction_id (tx_id : TransactionID) : string :=
  (str_int (shardNum (accountID tx_id)) ++ "."
   ++ str_int (realmNum (accountID tx_id)) ++ "."
   ++ str_int (accountNum (accountID tx_id)) ++ "-"
   ++ str_int (seconds (transactionValidStart tx_id)) ++ "."
   ++ str_int (nanos (transactionValidStart tx_id)))%string.

(** ** Python control flow *)

(** A [for] loop over [l] whose body may raise; the state is threaded
    through the iterations. *)
Fixpoint for_each {S A : Type} (body : S -> A -> PyResult S) (l : list A) (s : S)
  : PyResult S :=
  match l with
  | [] => Ok s
  | x :: l' => s' <- body s x ;; for_each body l' s'
  end.

(** Whether an outcome is a raised [IndexError]. *)
Definition is_IndexError {A : Type} (outcome : PyResult A) : bool :=
  match outcome with
  | Raise (IndexError _) => true
  | _ => false
  end.

(** ** Python list and bytearray operations *)

(** Insertion of [x] in front of the first element whose key is not below
    the key of [x]. *)
Fixpoint insort {A : Type} (key : A -> Z) (x : A) (l : list A) : list A :=
  match l with
  | [] => [x]
  | y :: l' => if key x <=? key y then x :: y :: l' else y :: insort key x l'
  end.

(** [sorted(l, key=key)]: ascending by key, elements of equal key kept in
    their input order. *)
Definition sorted {A : Type} (key : A -> Z) (l : list A) : list A :=
  fold_right (insort key) [] l.

(** [bytearray(n)]: [n] zero octets. *)
Definition bytearray (n : nat) : bytes := repeat x00 n.

(** [buf[lo:hi] = v] on a bytearray, for non-negative [lo] and [hi]: both
    bounds are clipped to the length of [buf], an inverted slice is empty at
    [lo], and the slice is replaced by [v] whatever the length of [v]. *)
Definition slice_assign (buf : bytes) (lo hi : nat) (v : bytes) : bytes :=
  firstn lo buf ++ v ++ skipn (Nat.max lo hi) buf.

(** [l[-1]] *)
Definition last_item {A : Type} (l : list A) : PyResult A :=
  match rev l with
  | x :: _ => Ok x
  | [] => Raise (IndexError "list index out of range")
  end.

(** Ascending, and strictly ascending, by key. *)
Definition ascending {A : Type} (key : A -> Z) : list A -> Prop :=
  StronglySorted (fun x y => key x <= key y).
Definition strictly_ascending {A : Type} (key : A -> Z) : list A -> Prop :=
  StronglySorted (fun x y => key x < key y).

(** ** Python text *)

(** A [str] object: a finite sequence of Unicode code points. *)
Definition pystr := list N.

(** The [str] of a literal, or of formatted text, whose characters are all
    below U+0100. *)
Definition u (s : string) : pystr := map N_of_ascii (list_ascii_of_string s).

(** [s.startswith(prefix)] *)
Fixpoint startswith (s prefix : pystr) : bool :=
  match prefix, s with
  | [], _ => true
  | _ :: _, [] => false
  | p :: prefix', c :: s' => (c =? p)%N && startswith s' prefix'
  end.

(** U+FFFD, the replacement character. *)
Definition REPLACEMENT : N := 0xFFFD%N.

Definition is_continuation_byte (c : N) : bool := ((0x80 <=? c) && (c <=? 0xBF))%N.

(** The UTF-8 decoder of CPython with [errors="replace"], on octets: a
    well-formed sequence yields its code point; an octet that cannot start a
    sequence, and each maximal prefix of a sequence that is cut short by an
    octet that cannot continue it or by the end of the input, yields one
    U+FFFD, and decoding resumes at the offending octet. *)
Fixpoint utf8_decode_replace (s : list N) : pystr :=
  (match s with
   | [] => []
   | ch :: s1 =>
       if ch <? 0x80 then ch :: utf8_decode_replace s1
       else if ch <? 0xC2 then REPLACEMENT :: utf8_decode_replace s1
       else if ch <? 0xE0 then
         match s1 with
         | [] => [REPLACEMENT]
         | ch2 :: s2 =>
             if is_continuation_byte ch2
             then (N.shiftl ch 6 + ch2 - (N.shiftl 0xC0 6 + 0x80))
                  :: utf8_decode_replace s2
             else REPLACEMENT :: utf8_decode_replace s1
         end
       else if ch <? 0xF0 then
         match s1 with
         | [] => [REPLACEMENT]
         | ch2 :: s2 =>
             if negb (is_continuation_byte ch2)
                || (if ch2 <? 0xA0 then ch =? 0xE0 else ch =? 0xED)
             then REPLACEMENT :: utf8_decode_replace s1
             else
               match s2 with
               | [] => [REPLACEMENT]
               | ch3 :: s3 =>
                   if is_continuation_byte ch3
                   then (N.shiftl ch 12 + N.shiftl ch2 6 + ch3
                         - (N.shiftl 0xE0 12 + N.shiftl 0x80 6 + 0x80))
                        :: utf8_decode_replace s3
                   else REPLACEMENT :: utf8_decode_replace s2
               end
         end
       else if ch <? 0xF5 then
         match s1 with
         | [] => [REPLACEMENT]
         | ch2 :: s2 =>
             if negb (is_continuation_byte ch2)
                || (if ch2 <? 0x90 then ch =? 0xF0 else ch =? 0xF4)
             then REPLACEMENT :: utf8_decode_replace s1
             else
               match s2 with
               | [] => [REPLACEMENT]
               | ch3 :: s3 =>
                   if negb (is_continuation_byte ch3)
                   then REPLACEMENT :: utf8_decode_replace s2
                   else
                     match s3 with
                     | [] => [REPLACEMENT]
                     | ch4 :: s4 =>
                         if is_continuation_byte ch4
                         then (N.shiftl ch 18 + N.shiftl ch2 12 + N.shiftl ch3 6 + ch4
                               - (N.shiftl 0xF0 18 + N.shiftl 0x80 12
                                  + N.shiftl 0x80 6 + 0x80))
                              :: utf8_decode_replace s4
                         else REPLACEMENT :: utf8_decode_replace s3
                     end
               end
         end
       else REPLACEMENT :: utf8_decode_replace s1
   end)%N.

(** [data.decode("utf-8", errors="replace")] *)
Definition decode_utf8_replace (data : bytes) : pystr :=
  utf8_decode_replace (map Byte.to_N data).

(** A Unicode scalar value: a code point up to U+10FFFF outside the
    surrogate range. *)
Definition scalar_value (c : N) : Prop :=
  (c < 0x110000 /\ ~ (0xD800 <= c <= 0xDFFF))%N.

(** ** Sample values

    An interpretation of [datetime] that keeps an instant as its two
    integers, and a few chunk records, for the instances evaluated at the
    end of the file. *)

Definition sample_datetime : Type := (Z * Z)%type.

Definition sample_utcfromtimestamp (s n : Z) : sample_datetime := (s, n).

(** Chunk [n] of 3, with the given payload and initial transaction id. *)
Definition sample_chunk (n : Z) (payload : string) (tx_id : option TransactionID)
  : ConsensusTopicResponse :=
  {| consensusTimestamp := mkTimestamp (1700000000 + n) 500;
     message := b payload;
     runningHash := b "hash" ++ b payload;
     sequenceNumber := 40 + n;
     chunkInfo := Some (mkChunkInfo tx_id n 3) |}.

(** A record that carries no chunk info. *)
Definition sample_plain (payload : string) (seq : Z) : ConsensusTopicResponse :=
  {| consensusTimestamp := mkTimestamp 1700000000 0;
     message := b payload;
     runningHash := b "hash";
     sequenceNumber := seq;
     chunkInfo := None |}.

Definition sample_tx_id : TransactionID :=
  mkTransactionID (mkTimestamp 100 200) (mkAccountID 0 0 5) false 0.

Section TopicMessage.

(** [datetime] objects, and [datetime.utcfromtimestamp(s + n / 1e9)] as a
    function of the two integers: the double-precision arithmetic and the
    calendar conversion are not interpreted.  Timestamps are taken within
    the range [datetime] represents, where the call returns. *)
Variable datetime : Type.
Variable utcfromtimestamp : Z -> Z -> datetime.

(** Convert a protobuf Timestamp to a Python datetime (UTC). *)
Definition _to_datetime (ts_proto : Timestamp) : datetime :=
  utcfromtimestamp (seconds ts_proto) (nanos ts_proto).

(** A single chunk within a chunked topic message. *)
Record TopicMessageChunk : Type := mkChunk {
  chunk_consensus_timestamp : datetime;
  content_size : nat;
  chunk_running_hash : bytes;
  chunk_sequence_number : Z
}.

(** [TopicMessageChunk.__init__] *)
Definition TopicMessageChunk_init (response : ConsensusTopicResponse)
  : TopicMessageChunk :=
  {| chunk_consensus_timestamp := _to_datetime (consensusTimestamp response);
     content_size := List.length (message response);
     chunk_running_hash := runningHash response;
     chunk_sequence_number := sequenceNumber response |}.

(** A topic message, possibly composed of multiple chunks. *)
Record TopicMessage : Type := mkTopicMessage {
  consensus_timestamp : datetime;
  contents : bytes;
  running_hash : bytes;
  sequence_number : Z;
  chunks : list TopicMessageChunk;
  transaction_id : option string
}.

(** The transaction id a response contributes: the formatted descriptor
    when both [HasField] tests succeed. *)
Definition response_transaction_id (response : ConsensusTopicResponse)
  : PyResult (option string) :=
  if HasField_chunkInfo response && HasField_initialTransactionID response
  then
    match chunkInfo_initialTransactionID response with
    | Some tx_id =>
        transaction_id <- format_transaction_id tx_id ;;
        Ok (Some transaction_id)
    | None => Ok None
    end
  else Ok None.

(** [TopicMessage.of_single] *)
Definition of_single (response : ConsensusTopicResponse) : PyResult TopicMessage :=
  let chunk := TopicMessageChunk_init response in
  let consensus_timestamp := chunk_consensus_timestamp chunk in
  let contents := message response in
  let running_hash := runningHash response in
  sequence_number <- getattr_int response "sequence_number" ;;
  transaction_id <- response_transaction_id response ;;
  Ok (mkTopicMessage consensus_timestamp contents running_hash
        sequence_number [chunk] transaction_id).

(** The body of the first loop of [of_many]; the state is
    [(chunks, total_size, transaction_id)]. *)
Definition collect_step (st : list TopicMessageChunk * nat * option string)
    (r : ConsensusTopicResponse)
  : PyResult (list TopicMessageChunk * nat * option string) :=
  let '(chunks, total_size, transaction_id) := st in
  let c := TopicMessageChunk_init r in
  let chunks := chunks ++ [c] in
  let total_size := (total_size + List.length (message r))%nat in
  transaction_id <-
    match transaction_id with
    | None => response_transaction_id r
    | Some t => Ok (Some t)
    end ;;
  Ok (chunks, total_size, transaction_id).

(** The second loop of [of_many]; the state is [(contents, offset)]. *)
Definition fill_step (st : bytes * nat) (r : ConsensusTopicResponse) : bytes * nat :=
  let '(contents, offset) := st in
  let end_ := (offset + List.length (message r))%nat in
  (slice_assign contents offset end_ (message r), end_).

(** [TopicMessage.of_many] *)
Definition of_many (responses : list ConsensusTopicResponse) : PyResult TopicMessage :=
  let sorted_responses := sorted chunkInfo_number responses in
  st <- for_each collect_step sorted_responses ([], 0%nat, None) ;;
  let '(chunks, total_size, transaction_id) := st in
  let '(contents, _) :=
    fold_left fill_step sorted_responses (bytearray total_size, 0%nat) in
  last_r <- last_item sorted_responses ;;
  let consensus_timestamp := _to_datetime (consensusTimestamp last_r) in
  let running_hash := runningHash last_r in
  let sequence_number := sequenceNumber last_r in
  Ok (mkTopicMessage consensus_timestamp contents running_hash
        sequence_number chunks transaction_id).

(** The argument of [from_proto]: one response, or a list of responses. *)
Inductive ProtoInput : Type :=
| Response (response : ConsensusTopicResponse)
| Responses (responses : list ConsensusTopicResponse).

(** [TopicMessage.from_proto] *)
Definition from_proto (response_or_responses : ProtoInput) (chunking_enabled : bool)
  : PyResult TopicMessage :=
  match response_or_responses with
  | Response response =>
      if chunking_enabled && HasField_chunkInfo response
         && (1 <? chunkInfo_total response)
      then Raise (ValueError
        "Cannot handle multi-chunk in a single response. Pass all chunk responses in a list.")
      else of_single response
  | Responses responses =>
      match responses with
      | [] => Raise (ValueError "Empty response list provided to from_proto().")
      | first :: _ =>
          if negb chunking_enabled && (List.length responses =? 1)%nat
          then of_single first
          else of_many responses
      end
  end.

(** [str(d)] for a datetime [d], not interpreted. *)
Variable datetime_str : datetime -> pystr.

(** [TopicMessage.__str__] *)
Definition __str__ (self : TopicMessage) : pystr :=
  let contents_str := decode_utf8_replace (contents self) in
  u "TopicMessage("
  ++ u "consensus_timestamp=" ++ datetime_str (consensus_timestamp self) ++ u ", "
  ++ u "sequence_number=" ++ u (str_int (sequence_number self)) ++ u ", "
  ++ u "contents='" ++ firstn 40 contents_str
  ++ (if (40 <? List.length contents_str)%nat then u "..." else u "") ++ u "', "
  ++ u "chunk_count=" ++ u (str_int (Z.of_nat (List.length (chunks self)))) ++ u ", "
  ++ u "transaction_id="
  ++ match transaction_id self with
     | Some t => u t
     | None => u "None"
     end
  ++ u ")".

(** ** Auxiliary notions for the statements *)

(** Whether a call of [from_proto] reaches one of its two calls of
    [of_single]. *)
Definition reaches_of_single (response_or_responses : ProtoInput)
  (chunking_enabled : bool) : bool :=
  match response_or_responses with
  | Response response =>
      negb (chunking_enabled && HasField_chunkInfo response
            && (1 <? chunkInfo_total response))
  | Responses responses =>
      match responses with
      | [] => false
      | _ :: _ => negb chunking_enabled && (List.length responses =? 1)%nat
      end
  end.

(** The message the specification describes for a record taken alone:
    every field read from the record, the record's descriptor as the one
    chunk, and the text of its initial transaction id when it carries
    one. *)
Definition single_record_message (r : ConsensusTopicResponse) : TopicMessage :=
  {| consensus_timestamp := _to_datetime (consensusTimestamp r);
     contents := message r;
     running_hash := runningHash r;
     sequence_number := sequenceNumber r;
     chunks := [TopicMessageChunk_init r];
     transaction_id :=
       option_map specified_transaction_id (chunkInfo_initialTransactionID r) |}.

(** [sum(c.content_size for c in chunks)] *)
Definition sum_content_size (chunks : list TopicMessageChunk) : nat :=
  list_sum (map content_size chunks).

(** The payloads of a list of responses, one after the other. *)
Definition payloads (responses : list ConsensusTopicResponse) : bytes :=
  List.concat (map message responses).

(** The record [r] with the declared total of its chunk info, when it
    carries one, set to [t]. *)
Definition with_total (t : Z) (r : ConsensusTopicResponse) : ConsensusTopicResponse :=
  {| consensusTimestamp := consensusTimestamp r;
     message := message r;
     runningHash := runningHash r;
     sequenceNumber := sequenceNumber r;
     chunkInfo :=
       match chunkInfo r with
       | Some ci => Some (mkChunkInfo (initialTransactionID ci) (number ci) t)
       | None => None
       end |}.

(** The rendering of [__str__] around a given text of the contents
    field. *)
Definition rendering_around (self : TopicMessage) (shown : pystr) : pystr :=
  u "TopicMessage(consensus_timestamp=" ++ datetime_str (consensus_timestamp self)
  ++ u ", sequence_number=" ++ u (str_int (sequence_number self))
  ++ u ", contents='" ++ shown
  ++ u "', chunk_count=" ++ u (str_int (Z.of_nat (List.length (chunks self))))
  ++ u ", transaction_id="
  ++ match transaction_id self with
     | Some t => u t
     | None => u "None"
     end
  ++ u ")".


(** ** Proof automation *)

(** Boolean tests over [N] in the context, turned into propositions. *)
Ltac bool_facts :=
  repeat match goal with
    | H : (_ && _) = true |- _ => apply andb_true_iff in H as [? ?]
    | H : (_ && _) = false |- _ => apply andb_false_iff in H
    | H : (_ || _) = true |- _ => apply orb_true_iff in H
    | H : (_ || _) = false |- _ => apply orb_false_iff in H as [? ?]
    | H : negb _ = true |- _ => apply negb_true_iff in H
    | H : negb _ = false |- _ => apply negb_false_iff in H
    | H : (if ?c then _ else _) = _ |- _ => destruct c eqn:?
    | H : (_ <? _)%N = true |- _ => apply N.ltb_lt in H
    | H : (_ <? _)%N = false |- _ => apply N.ltb_ge in H
    | H : (_ <=? _)%N = true |- _ => apply N.leb_le in H
    | H : (_ <=? _)%N = false |- _ => apply N.leb_gt in H
    | H : (_ =? _)%N = true |- _ => apply N.eqb_eq in H
    | H : (_ =? _)%N = false |- _ => apply N.eqb_neq in H
    end.

(** ** Properties of [sorted] *)

Section Sorted.

Context {A : Type} (key : A -> Z).

Lemma insort_perm (x : A) (l : list A) : Permutation (insort key x l) (x :: l).
Proof.
  induction l as [|y l IH]; simpl; [reflexivity|].
  destruct (key x <=? key y); [reflexivity|].
  rewrite IH. apply perm_swap.
Qed.

Lemma sorted_perm (l : list A) : Permutation (sorted key l) l.
Proof.
  induction l as [|x l IH]; simpl; [constructor|].
  rewrite insort_perm. now constructor.
Qed.

Lemma insort_ascending (x : A) (l : list A) :
  ascending key l -> ascending key (insort key x l).
Proof.
  unfold ascending.
  induction l as [|y l IH]; simpl; intros Hl.
  - repeat constructor.
  - apply StronglySorted_inv in Hl as [Hl Hy].
    destruct (key x <=? key y) eqn:E.
    + apply Z.leb_le in E. constructor; [now constructor|].
      constructor; [exact E|].
      rewrite Forall_forall in *. intros z Hz. specialize (Hy z Hz). lia.
    + apply Z.leb_gt in E. constructor; [now apply IH|].
      rewrite Forall_forall in *. intros z Hz.
      apply (Permutation_in _ (insort_perm x l)) in Hz.
      destruct Hz as [<-|Hz]; [lia|now apply Hy].
Qed.

Lemma sorted_ascending (l : list A) : ascending key (sorted key l).
Proof.
  induction l as [|x l IH]; simpl; [constructor|now apply insort_ascending].
Qed.

(** Stability: the elements of any one key keep their input order. *)
Lemma insort_filter (k : Z) (x : A) (l : list A) :
  filter (fun y => key y =? k) (insort key x l)
  = filter (fun y => key y =? k) (x :: l).
Proof.
  induction l as [|y l IH]; [reflexivity|].
  cbn [insort]. destruct (key x <=? key y) eqn:E; [reflexivity|].
  apply Z.leb_gt in E. cbn [filter] in *. rewrite IH.
  destruct (key x =? k) eqn:Ex, (key y =? k) eqn:Ey; try reflexivity.
  apply Z.eqb_eq in Ex, Ey. lia.
Qed.

Lemma sorted_filter (k : Z) (l : list A) :
  filter (fun y => key y =? k) (sorted key l) = filter (fun y => key y =? k) l.
Proof.
  induction l as [|x l IH]; [reflexivity|].
  cbn [sorted fold_right]. fold (sorted key l).
  rewrite insort_filter. cbn [filter]. now rewrite IH.
Qed.

(** With pairwise distinct keys an ascending list is strictly ascending. *)
Lemma ascending_strict (l : list A) :
  NoDup (map key l) -> ascending key l -> strictly_ascending key l.
Proof.
  unfold ascending, strictly_ascending.
  induction l as [|x l IH]; intros Hnd Hl; [constructor|].
  cbn [map] in Hnd. apply NoDup_cons_iff in Hnd as [Hx Hnd].
  apply StronglySorted_inv in Hl as [Hl Hall].
  constructor; [now apply IH|].
  rewrite Forall_forall in *. intros y Hy.
  specialize (Hall y Hy).
  assert (key y <> key x) by (intros E; apply Hx; rewrite <- E; now apply in_map).
  lia.
Qed.

(** A strictly ascending list is determined by its elements. *)
Lemma strictly_ascending_unique (l l' : list A) :
  Permutation l l' -> strictly_ascending key l -> strictly_ascending key l' -> l = l'.
Proof.
  unfold strictly_ascending.
  revert l'. induction l as [|x l IH]; intros l' Hp Hl Hl'.
  - now apply Permutation_nil in Hp.
  - destruct l' as [|x' l'].
    + symmetry in Hp. now apply Permutation_nil in Hp.
    + apply StronglySorted_inv in Hl as [Hl Hx].
      apply StronglySorted_inv in Hl' as [Hl' Hx'].
      rewrite Forall_forall in Hx, Hx'.
      assert (x = x') as <-.
      { assert (In x (x' :: l')) as Hin
          by (apply (Permutation_in _ Hp); now left).
        assert (In x' (x :: l)) as Hin'
          by (apply (Permutation_in _ (Permutation_sym Hp)); now left).
        destruct Hin as [E|Hin]; [now symmetry|].
        destruct Hin' as [E|Hin']; [exact E|].
        specialize (Hx _ Hin'). specialize (Hx' _ Hin). lia. }
      f_equal. apply IH; [now apply Permutation_cons_inv in Hp|assumption..].
Qed.

(** Order independence of [sorted] on pairwise distinct keys. *)
Lemma sorted_permutation_invariant (l l' : list A) :
  NoDup (map key l) -> Permutation l l' -> sorted key l' = sorted key l.
Proof.
  intros Hnd Hp.
  assert (Permutation (sorted key l') (sorted key l)) as Hps.
  { rewrite !sorted_perm. now symmetry. }
  apply strictly_ascending_unique; [exact Hps| |].
  - apply ascending_strict; [|apply sorted_ascending].
    apply (Permutation_NoDup (l := map key l)); [|exact Hnd].
    apply Permutation_map. rewrite sorted_perm. exact Hp.
  - apply ascending_strict; [|apply sorted_ascending].
    apply (Permutation_NoDup (l := map key l)); [|exact Hnd].
    apply Permutation_map. now rewrite sorted_perm.
Qed.

Lemma last_item_app (l : list A) (x : A) : last_item (l ++ [x]) = Ok x.
Proof. unfold last_item. now rewrite rev_app_distr. Qed.

Lemma last_item_nonempty (l : list A) :
  l <> [] -> exists l' x, l = l' ++ [x].
Proof.
  intros H. destruct (exists_last H) as (l' & x & ->). now exists l', x.
Qed.

(** The last element of [sorted l] is the last-arriving element of
    maximal key. *)
Lemma sorted_last (pre post : list A) (x : A) :
  (forall y, In y pre -> key y <= key x) ->
  (forall y, In y post -> key y < key x) ->
  last_item (sorted key (pre ++ x :: post)) = Ok x.
Proof.
  intros Hpre Hpost.
  set (l := pre ++ x :: post).
  assert (sorted key l <> []) as Hne.
  { intros E. pose proof (sorted_perm l) as Hp. rewrite E in Hp.
    apply Permutation_nil in Hp. subst l. now destruct pre. }
  destruct (last_item_nonempty _ Hne) as (s & z & Es).
  rewrite Es, last_item_app. f_equal.
  assert (In z l) as Hz.
  { apply (Permutation_in _ (sorted_perm l)). rewrite Es.
    apply in_or_app. right. now left. }
  assert (key z <= key x) as Hzx.
  { subst l. apply in_app_or in Hz as [Hz|[<-|Hz]];
      [now apply Hpre|lia|specialize (Hpost _ Hz); lia]. }
  assert (key x <= key z) as Hxz.
  { pose proof (sorted_ascending l) as Hs. rewrite Es in Hs.
    assert (In x (s ++ [z])) as Hx.
    { rewrite <- Es. apply (Permutation_in _ (Permutation_sym (sorted_perm l))).
      subst l. apply in_or_app. right. now left. }
    apply in_app_or in Hx as [Hx|[<-|[]]]; [|lia].
    clear - Hs Hx. unfold ascending in Hs.
    induction s as [|a s IH]; [destruct Hx|].
    cbn [app] in Hs. apply StronglySorted_inv in Hs as [Hs Ha].
    destruct Hx as [<-|Hx]; [|now apply IH].
    rewrite Forall_forall in Ha. apply Ha. apply in_or_app. right. now left. }
  pose proof (sorted_filter (key x) l) as Hf. rewrite Es in Hf.
  subst l. rewrite !filter_app in Hf. cbn [filter] in Hf.
  replace (key z =? key x) with true in Hf by (symmetry; apply Z.eqb_eq; lia).
  rewrite Z.eqb_refl in Hf.
  replace (filter (fun y => key y =? key x) post) with (@nil A) in Hf.
  - apply (f_equal (@rev A)) in Hf. rewrite !rev_app_distr in Hf.
    cbn in Hf. now inversion Hf.
  - symmetry. clear - Hpost. induction post as [|a post IH]; [reflexivity|].
    cbn [filter]. pose proof (Hpost a (or_introl eq_refl)).
    replace (key a =? key x) with false by (symmetry; apply Z.eqb_neq; lia).
    apply IH. intros y Hy. apply Hpost. now right.
Qed.

(** When all keys are equal, [sorted] returns its input. *)
Lemma sorted_all_equal (l : list A) :
  (forall x y, In x l -> In y l -> key x = key y) -> sorted key l = l.
Proof.
  intros Heq. destruct l as [|a l]; [reflexivity|].
  assert (forall l', (forall x, In x l' -> key x = key a) ->
                     filter (fun y => key y =? key a) l' = l') as Hfil.
  { induction l' as [|x l' IH]; intros H; [reflexivity|].
    cbn [filter]. rewrite (H x (or_introl eq_refl)), Z.eqb_refl.
    f_equal. apply IH. intros y Hy. apply H. now right. }
  rewrite <- (Hfil (sorted key (a :: l))).
  - rewrite sorted_filter. apply Hfil. intros x Hx. apply Heq; [exact Hx|now left].
  - intros x Hx. apply (Permutation_in _ (sorted_perm (a :: l))) in Hx.
    apply Heq; [exact Hx|now left].
Qed.

End Sorted.


(** ** [sorted] on ordered input, and under a key-preserving map *)

Lemma sorted_of_ascending {A : Type} (key : A -> Z) (l : list A) :
  ascending key l -> sorted key l = l.
Proof.
  unfold ascending. induction l as [|x l IH]; intros Hl; [reflexivity|].
  apply StronglySorted_inv in Hl as [Hl Hx].
  cbn [sorted fold_right]. fold (sorted key l). rewrite (IH Hl).
  destruct l as [|y l]; [reflexivity|].
  cbn [insort]. apply Forall_inv in Hx. apply Z.leb_le in Hx. now rewrite Hx.
Qed.

Lemma strictly_ascending_ascending {A : Type} (key : A -> Z) (l : list A) :
  strictly_ascending key l -> ascending key l.
Proof.
  unfold strictly_ascending, ascending.
  induction 1 as [|x l Hl IH Hx]; constructor; [exact IH|].
  rewrite Forall_forall in *. intros y Hy. specialize (Hx y Hy). lia.
Qed.

Lemma strictly_ascending_NoDup {A : Type} (key : A -> Z) (l : list A) :
  strictly_ascending key l -> NoDup (map key l).
Proof.
  unfold strictly_ascending.
  induction 1 as [|x l Hl IH Hx]; cbn [map]; constructor; [|exact IH].
  rewrite Forall_forall in Hx. intros Hin.
  apply in_map_iff in Hin as (y & Ey & Hy). specialize (Hx y Hy). lia.
Qed.

Lemma insort_map {A : Type} (key : A -> Z) (g : A -> A) (x : A) (l : list A) :
  (forall y, key (g y) = key y) ->
  insort key (g x) (map g l) = map g (insort key x l).
Proof.
  intros Hg. induction l as [|y l IH]; [reflexivity|].
  cbn [map insort]. rewrite !Hg.
  destruct (key x <=? key y); [reflexivity|]. cbn [map]. now rewrite IH.
Qed.

Lemma sorted_map {A : Type} (key : A -> Z) (g : A -> A) (l : list A) :
  (forall y, key (g y) = key y) ->
  sorted key (map g l) = map g (sorted key l).
Proof.
  intros Hg. induction l as [|x l IH]; [reflexivity|].
  cbn [map sorted fold_right]. fold (sorted key (map g l)). fold (sorted key l).
  rewrite IH. now apply insort_map.
Qed.

Lemma last_item_map {A : Type} (g : A -> A) (l : list A) :
  last_item (map g l)
  = match last_item l with
    | Ok x => Ok (g x)
    | Raise e => Raise e
    end.
Proof.
  unfold last_item. rewrite <- map_rev. now destruct (rev l).
Qed.

Lemma existsb_Permutation {A : Type} (p : A -> bool) (l l' : list A) :
  Permutation l l' -> existsb p l = existsb p l'.
Proof.
  induction 1 as [|x l l' _ IH|x y l|l l' l'' _ IH1 _ IH2]; cbn [existsb].
  - reflexivity.
  - now rewrite IH.
  - now destruct (p x), (p y).
  - now rewrite IH1.
Qed.

Lemma existsb_all_false {A : Type} (p : A -> bool) (l : list A) :
  existsb p l = false <-> forall x, In x l -> p x = false.
Proof.
  induction l as [|a l IH]; cbn [existsb In].
  - split; [intros _ x []|reflexivity].
  - rewrite orb_false_iff, IH. split.
    + intros [Ha Hl] x [<-|Hx]; [exact Ha|now apply Hl].
    + intros H. split; [apply H; now left|intros x Hx; apply H; now right].
Qed.

(** ** The two loops of [of_many] *)

Lemma payloads_cons (r : ConsensusTopicResponse) (rs : list ConsensusTopicResponse) :
  payloads (r :: rs) = message r ++ payloads rs.
Proof. reflexivity. Qed.

Lemma payloads_app (rs rs' : list ConsensusTopicResponse) :
  payloads (rs ++ rs') = payloads rs ++ payloads rs'.
Proof. unfold payloads. now rewrite map_app, concat_app. Qed.

Lemma HasField_initialTransactionID_iff (r : ConsensusTopicResponse) :
  HasField_initialTransactionID r = true <-> chunkInfo_initialTransactionID r <> None.
Proof.
  unfold HasField_initialTransactionID, chunkInfo_initialTransactionID.
  destruct (chunkInfo r) as [ci|]; [destruct (initialTransactionID ci)|];
    split; congruence.
Qed.

Lemma no_descriptor_existsb (rs : list ConsensusTopicResponse) :
  existsb HasField_initialTransactionID rs = false
  <-> forall r, In r rs -> chunkInfo_initialTransactionID r = None.
Proof.
  rewrite existsb_all_false. split; intros H r Hr; specialize (H r Hr).
  - destruct (chunkInfo_initialTransactionID r) eqn:E; [|reflexivity].
    assert (HasField_initialTransactionID r = true)
      by (apply HasField_initialTransactionID_iff; congruence).
    congruence.
  - destruct (HasField_initialTransactionID r) eqn:E; [|reflexivity].
    apply HasField_initialTransactionID_iff in E. contradiction.
Qed.

(** The f-string raises at its first field. *)
Lemma format_transaction_id_raises (tx_id : TransactionID) :
  format_transaction_id tx_id = Raise (AttributeError "shardNum").
Proof. reflexivity. Qed.

Lemma response_transaction_id_eq (r : ConsensusTopicResponse) :
  response_transaction_id r
  = if HasField_initialTransactionID r then Raise (AttributeError "shardNum")
    else Ok None.
Proof.
  unfold response_transaction_id, HasField_chunkInfo,
    HasField_initialTransactionID, chunkInfo_initialTransactionID.
  destruct (chunkInfo r) as [ci|]; [|reflexivity].
  now destruct (initialTransactionID ci).
Qed.

Lemma collect_loop (rs : list ConsensusTopicResponse) :
  forall (cs : list TopicMessageChunk) (n : nat),
    for_each collect_step rs (cs, n, None)
    = if existsb HasField_initialTransactionID rs
      then Raise (AttributeError "shardNum")
      else Ok (cs ++ map TopicMessageChunk_init rs,
               (n + List.length (payloads rs))%nat,
               None).
Proof.
  induction rs as [|r rs IH]; intros cs n.
  - cbn. now rewrite app_nil_r, Nat.add_0_r.
  - cbn [for_each collect_step existsb]. rewrite response_transaction_id_eq.
    destruct (HasField_initialTransactionID r); cbn [bind orb]; [reflexivity|].
    rewrite IH, payloads_cons, length_app.
    destruct (existsb HasField_initialTransactionID rs); [reflexivity|].
    cbn [map]. rewrite <- app_assoc. cbn [app]. do 3 f_equal. lia.
Qed.

Lemma slice_assign_fill (done v : bytes) (rest : nat) :
  slice_assign (done ++ bytearray (List.length v + rest))
    (List.length done) (List.length done + List.length v) v
  = (done ++ v) ++ bytearray rest.
Proof.
  unfold slice_assign, bytearray.
  rewrite Nat.max_r by lia.
  rewrite firstn_app, firstn_all, Nat.sub_diag. cbn [firstn].
  rewrite app_nil_r, skipn_app, skipn_all2 by lia.
  rewrite repeat_app, skipn_app, skipn_all2
    by (rewrite repeat_length; lia).
  rewrite repeat_length.
  replace (List.length done + List.length v - List.length done
           - List.length v)%nat with 0%nat by lia.
  cbn [skipn app]. now rewrite <- app_assoc.
Qed.

Lemma fill_loop (rs : list ConsensusTopicResponse) :
  forall (done : bytes) (rest : nat),
    fold_left fill_step rs
      (done ++ bytearray (List.length (payloads rs) + rest), List.length done)
    = (done ++ payloads rs ++ bytearray rest,
       (List.length done + List.length (payloads rs))%nat).
Proof.
  induction rs as [|r rs IH]; intros done rest.
  - cbn. now rewrite Nat.add_0_r.
  - cbn [fold_left fill_step]. rewrite payloads_cons, length_app.
    rewrite <- Nat.add_assoc, slice_assign_fill.
    replace (List.length done + List.length (message r))%nat
      with (List.length (done ++ message r)) by apply length_app.
    rewrite IH, length_app, <- !app_assoc. f_equal. lia.
Qed.

(** [of_many] in closed form. *)
Lemma of_many_eq (responses : list ConsensusTopicResponse) :
  of_many responses
  = if existsb HasField_initialTransactionID responses
    then Raise (AttributeError "shardNum")
    else (last_r <- last_item (sorted chunkInfo_number responses) ;;
          Ok (mkTopicMessage
                (_to_datetime (consensusTimestamp last_r))
                (payloads (sorted chunkInfo_number responses))
                (runningHash last_r)
                (sequenceNumber last_r)
                (map TopicMessageChunk_init (sorted chunkInfo_number responses))
                None)).
Proof.
  unfold of_many. rewrite collect_loop.
  rewrite (existsb_Permutation _ _ _ (sorted_perm chunkInfo_number responses)).
  destruct (existsb HasField_initialTransactionID responses); [reflexivity|].
  cbn [bind app Nat.add].
  pose proof (fill_loop (sorted chunkInfo_number responses) [] 0) as H.
  cbn [app List.length] in H. rewrite Nat.add_0_r in H.
  destruct (fold_left fill_step _ _) as [contents0 offset] eqn:E.
  inversion H as [[Hc Ho]].
  unfold bytearray. cbn [repeat]. now rewrite app_nil_r.
Qed.

Lemma sorted_nonempty (responses : list ConsensusTopicResponse) :
  responses <> [] -> sorted chunkInfo_number responses <> [].
Proof.
  intros Hne E. pose proof (sorted_perm chunkInfo_number responses) as Hp.
  rewrite E in Hp. now apply Permutation_nil in Hp.
Qed.

Lemma of_many_returns (responses : list ConsensusTopicResponse) :
  responses <> [] ->
  (forall r, In r responses -> chunkInfo_initialTransactionID r = None) ->
  exists m, of_many responses = Ok m.
Proof.
  intros Hne Hnone. rewrite of_many_eq.
  rewrite (proj2 (no_descriptor_existsb _) Hnone).
  destruct (last_item_nonempty _ (sorted_nonempty _ Hne)) as (s & z & ->).
  rewrite last_item_app. cbn [bind]. eauto.
Qed.

(** What a returned message tells about the call. *)
Lemma of_many_Ok_inv (responses : list ConsensusTopicResponse) (m : TopicMessage) :
  of_many responses = Ok m ->
  existsb HasField_initialTransactionID responses = false
  /\ exists last_r,
      last_item (sorted chunkInfo_number responses) = Ok last_r
      /\ m = mkTopicMessage
               (_to_datetime (consensusTimestamp last_r))
               (payloads (sorted chunkInfo_number responses))
               (runningHash last_r)
               (sequenceNumber last_r)
               (map TopicMessageChunk_init (sorted chunkInfo_number responses))
               None.
Proof.
  rewrite of_many_eq.
  destruct (existsb HasField_initialTransactionID responses); [discriminate|].
  destruct (last_item (sorted chunkInfo_number responses)) as [last_r|e];
    cbn [bind]; [|discriminate].
  intros [= <-]. split; [reflexivity|]. now exists last_r.
Qed.

(** [of_many] raises as soon as a record carries a descriptor. *)
Lemma of_many_raises_on_descriptor (responses : list ConsensusTopicResponse) :
  (exists r, In r responses /\ chunkInfo_initialTransactionID r <> None) ->
  of_many responses = Raise (AttributeError "shardNum").
Proof.
  intros (r & Hr & Hc). rewrite of_many_eq.
  destruct (existsb HasField_initialTransactionID responses) eqn:E; [reflexivity|].
  pose proof (proj1 (no_descriptor_existsb _) E r Hr). contradiction.
Qed.

(** ** The dispatch of [from_proto] *)

(** The sequence number is readable under its declared name, and under no
    other. *)
Lemma getattr_int_declared (response : ConsensusTopicResponse) (name : string) :
  getattr_int response name
  = if String.eqb name "sequenceNumber" then Ok (sequenceNumber response)
    else Raise (AttributeError name).
Proof. reflexivity. Qed.

Lemma of_single_raises (response : ConsensusTopicResponse) :
  of_single response = Raise (AttributeError "sequence_number").
Proof. reflexivity. Qed.

(** A message returned by [from_proto] was returned by [of_many], on a
    list of two or more records or on a one-element list with chunking
    enabled. *)
Lemma from_proto_Ok_inv (inp : ProtoInput) (ce : bool) (m : TopicMessage) :
  from_proto inp ce = Ok m ->
  exists responses,
    inp = Responses responses
    /\ ((2 <= List.length responses)%nat
        \/ (List.length responses = 1%nat /\ ce = true))
    /\ of_many responses = Ok m.
Proof.
  destruct inp as [response|[|r rs]]; cbn [from_proto].
  - destruct (ce && HasField_chunkInfo response && (1 <? chunkInfo_total response));
      [discriminate|rewrite of_single_raises; discriminate].
  - discriminate.
  - destruct (negb ce && (List.length (r :: rs) =? 1)%nat) eqn:E;
      [rewrite of_single_raises; discriminate|].
    intros H. exists (r :: rs). split; [reflexivity|]. split; [|exact H].
    destruct rs as [|r' rs]; [|left; cbn; lia].
    right. split; [reflexivity|]. now destruct ce.
Qed.

(** ** The properties of the specification *)

(** C1 (order independence).  On every permutation of a collection of
    chunk records with pairwise distinct position indices [of_many] has
    the same outcome.  When the collection is non-empty and no record
    carries an initial-transaction descriptor, that outcome is a message:
    the same contents, final consensus timestamp, running hash and
    sequence number, chunks and transaction id on every permutation.
    Three such chunks with position indices 2, 1, 3 and payloads CD, AB,
    EF reassemble to ABCDEF with three chunks. *)
Theorem of_many_order_independent :
  (forall responses responses' : list ConsensusTopicResponse,
      NoDup (map chunkInfo_number responses) ->
      Permutation responses responses' ->
      of_many responses' = of_many responses)
  /\ (forall responses responses' : list ConsensusTopicResponse,
         responses <> [] ->
         NoDup (map chunkInfo_number responses) ->
         Permutation responses responses' ->
         (forall r, In r responses -> chunkInfo_initialTransactionID r = None) ->
         exists m, of_many responses = Ok m /\ of_many responses' = Ok m)
  /\ (forall r1 r2 r3 : ConsensusTopicResponse,
         chunkInfo_number r1 = 2 -> chunkInfo_number r2 = 1 ->
         chunkInfo_number r3 = 3 ->
         message r1 = b "CD" -> message r2 = b "AB" -> message r3 = b "EF" ->
         chunkInfo_initialTransactionID r1 = None ->
         chunkInfo_initialTransactionID r2 = None ->
         chunkInfo_initialTransactionID r3 = None ->
         exists m, of_many [r1; r2; r3] = Ok m
                   /\ contents m = b "ABCDEF"
                   /\ List.length (chunks m) = 3%nat).
Proof.
  assert (forall responses responses' : list ConsensusTopicResponse,
             NoDup (map chunkInfo_number responses) ->
             Permutation responses responses' ->
             of_many responses' = of_many responses) as Hperm.
  { intros responses responses' Hnd Hp. rewrite !of_many_eq.
    rewrite (sorted_permutation_invariant chunkInfo_number _ _ Hnd Hp).
    now rewrite (existsb_Permutation _ _ _ Hp). }
  split; [exact Hperm|]. split.
  - intros responses responses' Hne Hnd Hp Hnone.
    destruct (of_many_returns responses Hne Hnone) as (m & Hm).
    exists m. split; [exact Hm|]. now rewrite (Hperm _ _ Hnd Hp).
  - intros r1 r2 r3 H1 H2 H3 M1 M2 M3 N1 N2 N3. rewrite of_many_eq.
    assert (existsb HasField_initialTransactionID [r1; r2; r3] = false) as ->.
    { apply no_descriptor_existsb. intros r [<-|[<-|[<-|[]]]]; assumption. }
    assert (sorted chunkInfo_number [r1; r2; r3] = [r2; r1; r3]) as ->.
    { unfold sorted. cbn [fold_right insort]. rewrite H2, H3.
      change (1 <=? 3) with true. cbn iota. cbn [insort]. rewrite H1, H2, H3.
      reflexivity. }
    eexists. split; [reflexivity|]. cbn [contents chunks].
    unfold payloads. cbn. rewrite M1, M2, M3. split; reflexivity.
Qed.

(** C3 (metadata provenance).  For a collection with pairwise distinct
    position indices, taken in any order, the consensus timestamp, running
    hash and sequence number of the message [of_many] assembles are those
    of the chunk record whose position index is maximal. *)
Theorem of_many_metadata_from_highest :
  forall (responses responses' : list ConsensusTopicResponse)
         (r : ConsensusTopicResponse) (m : TopicMessage),
    In r responses ->
    NoDup (map chunkInfo_number responses) ->
    (forall r', In r' responses -> chunkInfo_number r' <= chunkInfo_number r) ->
    Permutation responses responses' ->
    of_many responses' = Ok m ->
    consensus_timestamp m = _to_datetime (consensusTimestamp r)
    /\ running_hash m = runningHash r
    /\ sequence_number m = sequenceNumber r.
Proof.
  intros responses responses' r m Hin Hnd Hmax Hp Hm.
  assert (In r responses') as Hin' by now apply (Permutation_in _ Hp).
  assert (NoDup (map chunkInfo_number responses')) as Hnd'.
  { apply (Permutation_NoDup (l := map chunkInfo_number responses)); [|exact Hnd].
    now apply Permutation_map. }
  destruct (in_split _ _ Hin') as (pre & post & E).
  destruct (of_many_Ok_inv _ _ Hm) as (_ & last_r & Hl & ->).
  rewrite E, sorted_last in Hl.
  - inversion Hl. repeat split.
  - intros y Hy. apply Hmax. apply (Permutation_in _ (Permutation_sym Hp)).
    rewrite E. apply in_or_app. now left.
  - intros y Hy.
    assert (chunkInfo_number y <= chunkInfo_number r).
    { apply Hmax. apply (Permutation_in _ (Permutation_sym Hp)).
      rewrite E. apply in_or_app. right. now right. }
    assert (chunkInfo_number y <> chunkInfo_number r); [|lia].
    rewrite E, map_app in Hnd'. cbn [map] in Hnd'.
    apply NoDup_remove_2 in Hnd'. intros Ey. apply Hnd'.
    apply in_or_app. right. rewrite <- Ey. now apply in_map.
Qed.

(** C4 (transaction-id precedence), as the code has it.  A message that
    [of_many] returns has no transaction id, and none of the records it
    was assembled from carries an initial-transaction descriptor.  On two
    chunks of which only the second carries the descriptor (shard 0, realm
    0, account 5, valid start 100, 200), for which the specification gives
    the text 0.0.5-100.200, [of_many] raises [AttributeError] at its read
    of [tx_id.shardNum]. *)
Theorem of_many_transaction_id :
  (forall (responses : list ConsensusTopicResponse) (m : TopicMessage),
      of_many responses = Ok m ->
      (forall r, In r responses -> chunkInfo_initialTransactionID r = None)
      /\ transaction_id m = None)
  /\ of_many [sample_chunk 1 "AB" None; sample_chunk 2 "CD" (Some sample_tx_id)]
     = Raise (AttributeError "shardNum")
  /\ specified_transaction_id sample_tx_id = "0.0.5-100.200"%string.
Proof.
  split; [|split; reflexivity].
  intros responses m Hm.
  destruct (of_many_Ok_inv _ _ Hm) as (Hnone & last_r & _ & ->).
  split; [now apply no_descriptor_existsb|reflexivity].
Qed.

Lemma payloads_length (rs : list ConsensusTopicResponse) :
  List.length (payloads rs) = sum_content_size (map TopicMessageChunk_init rs).
Proof.
  unfold sum_content_size.
  induction rs as [|r rs IH]; [reflexivity|].
  rewrite payloads_cons, length_app, IH. reflexivity.
Qed.

Lemma of_many_length (responses : list ConsensusTopicResponse) (m : TopicMessage) :
  of_many responses = Ok m ->
  List.length (contents m) = sum_content_size (chunks m).
Proof.
  intros Hm. destruct (of_many_Ok_inv _ _ Hm) as (_ & last_r & _ & ->).
  cbn [contents chunks]. apply payloads_length.
Qed.

Lemma of_single_length (response : ConsensusTopicResponse) (m : TopicMessage) :
  of_single response = Ok m ->
  List.length (contents m) = sum_content_size (chunks m).
Proof.
  unfold of_single.
  destruct (getattr_int response "sequence_number") as [n|e];
    cbn [bind]; [|discriminate].
  destruct (response_transaction_id response) as [t|e];
    cbn [bind]; [|discriminate].
  intros [= <-]. cbn [contents chunks]. unfold sum_content_size. cbn. lia.
Qed.

Lemma fill_in_bounds (s pre : list ConsensusTopicResponse)
    (r : ConsensusTopicResponse) (post : list ConsensusTopicResponse)
    (contents0 : bytes) (offset : nat) :
  s = pre ++ r :: post ->
  fold_left fill_step pre (bytearray (List.length (payloads s)), 0%nat)
  = (contents0, offset) ->
  List.length contents0 = List.length (payloads s)
  /\ (offset + List.length (message r) <= List.length contents0)%nat.
Proof.
  intros -> Hfill.
  rewrite payloads_app, payloads_cons, !length_app in *.
  pose proof (fill_loop pre []
                (List.length (message r) + List.length (payloads post))) as Hl.
  cbn [app List.length Nat.add] in Hl.
  assert ((contents0, offset)
          = (payloads pre
             ++ bytearray (List.length (message r) + List.length (payloads post)),
             List.length (payloads pre))) as E
    by (rewrite <- Hfill; exact Hl).
  inversion E. unfold bytearray. rewrite length_app, repeat_length. lia.
Qed.

(** C5 (length conservation).  For every message returned by the
    single-chunk path, by the multi-chunk path, or by [from_proto], the
    length of the contents is the sum of [content_size] over the chunks of
    the message. *)
Theorem contents_length_conservation :
  forall m : TopicMessage,
    (exists responses, of_many responses = Ok m)
    \/ (exists response, of_single response = Ok m)
    \/ (exists inp chunking_enabled, from_proto inp chunking_enabled = Ok m) ->
    List.length (contents m) = sum_content_size (chunks m).
Proof.
  intros m [(responses & H)|[(response & H)|(inp & ce & H)]].
  - now apply (of_many_length responses).
  - now apply (of_single_length response).
  - destruct inp as [response|[|r rs]]; cbn [from_proto] in H.
    + destruct (ce && HasField_chunkInfo response && (1 <? chunkInfo_total response));
        [discriminate|now apply (of_single_length response)].
    + discriminate.
    + destruct (negb ce && (List.length (r :: rs) =? 1)%nat);
        [now apply (of_single_length r)|now apply (of_many_length (r :: rs))].
Qed.

(** C7 (empty input).  An empty collection is rejected with the
    empty-input error, whatever the chunking flag; no message is
    returned. *)
Theorem from_proto_empty_rejected :
  forall chunking_enabled : bool,
    from_proto (Responses []) chunking_enabled
    = Raise (ValueError "Empty response list provided to from_proto().").
Proof. intros chunking_enabled. reflexivity. Qed.

(** C9 (bounds).  [from_proto] rejects the empty collection before any
    dispatch, and passes a non-empty collection on to [of_many] unless it
    has one element and chunking is disabled; no call of [from_proto] on a
    collection raises [IndexError].  On a non-empty collection [of_many]
    finds the last element of the sorted sequence, raises no [IndexError],
    and every write of its second loop lies inside the preallocated
    buffer, whose length stays the total the first loop accumulated. *)
Theorem of_many_in_bounds :
  forall (responses : list ConsensusTopicResponse) (chunking_enabled : bool),
    is_IndexError (from_proto (Responses responses) chunking_enabled) = false
    /\ (responses = [] ->
        from_proto (Responses responses) chunking_enabled
        = Raise (ValueError "Empty response list provided to from_proto()."))
    /\ (responses <> [] ->
        chunking_enabled = true \/ List.length responses <> 1%nat ->
        from_proto (Responses responses) chunking_enabled = of_many responses)
    /\ (responses <> [] ->
        (exists last_r, last_item (sorted chunkInfo_number responses) = Ok last_r)
        /\ is_IndexError (of_many responses) = false
        /\ (forall chunks total_size tid pre r post contents offset,
               for_each collect_step (sorted chunkInfo_number responses)
                 ([], 0%nat, None) = Ok (chunks, total_size, tid) ->
               sorted chunkInfo_number responses = pre ++ r :: post ->
               fold_left fill_step pre (bytearray total_size, 0%nat)
               = (contents, offset) ->
               List.length contents = total_size
               /\ (offset + List.length (message r) <= List.length contents)%nat)).
Proof.
  intros responses ce.
  assert (responses <> [] -> is_IndexError (of_many responses) = false) as Hmany.
  { intros Hne. rewrite of_many_eq.
    destruct (existsb HasField_initialTransactionID responses); [reflexivity|].
    destruct (last_item_nonempty _ (sorted_nonempty _ Hne)) as (s & z & ->).
    now rewrite last_item_app. }
  split; [|split; [|split]].
  - destruct responses as [|r rs]; [reflexivity|]. cbn [from_proto].
    destruct (negb ce && (List.length (r :: rs) =? 1)%nat);
      [reflexivity|apply Hmany; discriminate].
  - now intros ->.
  - intros Hne Hroute. destruct responses as [|r rs]; [contradiction|].
    cbn [from_proto].
    destruct (negb ce && (List.length (r :: rs) =? 1)%nat) eqn:E; [|reflexivity].
    apply andb_true_iff in E as [E1 E2]. apply negb_true_iff in E1.
    apply Nat.eqb_eq in E2. destruct Hroute; congruence.
  - intros Hne. split; [|split; [now apply Hmany|]].
    + destruct (last_item_nonempty _ (sorted_nonempty _ Hne)) as (s & z & ->).
      exists z. apply last_item_app.
    + intros chunks0 total_size tid pre r post contents0 offset Hc Hs Hfill.
      rewrite collect_loop in Hc.
      destruct (existsb HasField_initialTransactionID
                  (sorted chunkInfo_number responses)); [discriminate|].
      inversion Hc as [[Hc1 Hc2 Hc3]].
      rewrite <- Hc2 in Hfill. exact (fill_in_bounds _ pre r post _ _ Hs Hfill).
Qed.

(** C10 (ties).  [of_many] orders the chunk records with a stable sort:
    the records of any one position index, those without chunk info
    having index 0, stay in arrival order in the sorted sequence, whose
    payloads make up the contents of the assembled message and whose
    descriptors make up its chunks; when all records share one index,
    contents and chunks follow the arrival order; and the final metadata
    are those of the last-arriving record among the records of maximal
    index. *)
Theorem of_many_stable :
  forall (responses : list ConsensusTopicResponse) (m : TopicMessage),
    of_many responses = Ok m ->
    contents m = payloads (sorted chunkInfo_number responses)
    /\ chunks m = map TopicMessageChunk_init (sorted chunkInfo_number responses)
    /\ (forall k,
           filter (fun r => chunkInfo_number r =? k)
             (sorted chunkInfo_number responses)
           = filter (fun r => chunkInfo_number r =? k) responses)
    /\ ((forall r r', In r responses -> In r' responses ->
                      chunkInfo_number r = chunkInfo_number r') ->
        contents m = payloads responses
        /\ chunks m = map TopicMessageChunk_init responses)
    /\ (forall pre r post,
           responses = pre ++ r :: post ->
           (forall r', In r' pre -> chunkInfo_number r' <= chunkInfo_number r) ->
           (forall r', In r' post -> chunkInfo_number r' < chunkInfo_number r) ->
           consensus_timestamp m = _to_datetime (consensusTimestamp r)
           /\ running_hash m = runningHash r
           /\ sequence_number m = sequenceNumber r).
Proof.
  intros responses m Hm.
  destruct (of_many_Ok_inv _ _ Hm) as (_ & last_r & El & ->).
  cbn [contents chunks consensus_timestamp running_hash sequence_number].
  split; [reflexivity|]. split; [reflexivity|]. split; [|split].
  - intros k. apply sorted_filter.
  - intros Hall. now rewrite sorted_all_equal.
  - intros pre r post E Hpre Hpost.
    rewrite E, sorted_last in El by assumption. inversion El. repeat split.
Qed.

(** C6 (single record).  A single record is rejected with the
    ambiguous-shape error exactly when chunking is enabled and the record
    carries chunk info whose total exceeds 1.  In every other case the call
    is the call of [of_single] on the record, and that call raises
    [AttributeError] at its read of [response.sequence_number]. *)
Theorem from_proto_single_record :
  forall (response : ConsensusTopicResponse) (chunking_enabled : bool),
    (from_proto (Response response) chunking_enabled
     = Raise (ValueError
         "Cannot handle multi-chunk in a single response. Pass all chunk responses in a list.")
     <-> chunking_enabled = true /\ HasField_chunkInfo response = true
         /\ 1 < chunkInfo_total response)
    /\ (~ (chunking_enabled = true /\ HasField_chunkInfo response = true
           /\ 1 < chunkInfo_total response) ->
        reaches_of_single (Response response) chunking_enabled = true
        /\ from_proto (Response response) chunking_enabled = of_single response
        /\ of_single response = Raise (AttributeError "sequence_number")).
Proof.
  intros response ce. cbn [from_proto reaches_of_single].
  destruct (ce && HasField_chunkInfo response && (1 <? chunkInfo_total response))
    eqn:E.
  - apply andb_true_iff in E as [E E3]. apply andb_true_iff in E as [E1 E2].
    apply Z.ltb_lt in E3. split; [tauto|]. intros Hn. exfalso. apply Hn. tauto.
  - assert (~ (ce = true /\ HasField_chunkInfo response = true
               /\ 1 < chunkInfo_total response)) as Hn.
    { intros (-> & H2 & H3). apply Z.ltb_lt in H3. rewrite H2, H3 in E.
      discriminate. }
    split; [|intros _; repeat split].
    split; [rewrite of_single_raises; discriminate|intros H; contradiction].
Qed.

(** C2 (single-chunk equivalence), as the code has it.  On a one-element
    collection [r] whose record carries no initial-transaction descriptor,
    the multi-chunk path returns the message whose fields are read from
    [r]; [from_proto] takes that path when chunking is enabled.
    [of_single] raises [AttributeError] on [r]; so does [from_proto] on
    the one-element collection with chunking disabled, and on [r] passed
    as a single record that declares no total above 1. *)
Theorem one_element_collection_and_single_record :
  forall r : ConsensusTopicResponse,
    (chunkInfo_initialTransactionID r = None ->
     of_many [r] = Ok (single_record_message r))
    /\ from_proto (Responses [r]) true = of_many [r]
    /\ of_single r = Raise (AttributeError "sequence_number")
    /\ from_proto (Responses [r]) false = Raise (AttributeError "sequence_number")
    /\ (chunkInfo_total r <= 1 ->
        forall chunking_enabled,
          from_proto (Response r) chunking_enabled
          = Raise (AttributeError "sequence_number")).
Proof.
  intros r. split; [|repeat split].
  - intros Hnone. rewrite of_many_eq.
    assert (existsb HasField_initialTransactionID [r] = false) as ->.
    { apply no_descriptor_existsb. now intros r' [<-|[]]. }
    unfold single_record_message. rewrite Hnone. cbn.
    unfold payloads. cbn. now rewrite app_nil_r.
  - intros Ht ce. cbn [from_proto].
    replace (1 <? chunkInfo_total r) with false by (symmetry; apply Z.ltb_ge; lia).
    now rewrite andb_false_r.
Qed.

(** ** The decoder *)

Lemma REPLACEMENT_scalar : scalar_value REPLACEMENT.
Proof. unfold scalar_value, REPLACEMENT. lia. Qed.

(** Decoding consumes at least one octet per code point it yields, and
    yields scalar values only. *)
Lemma utf8_decode_replace_sound (n : nat) :
  forall s : list N,
    (List.length s <= n)%nat ->
    Forall (fun c => (c <= 255)%N) s ->
    (List.length (utf8_decode_replace s) <= List.length s)%nat
    /\ Forall scalar_value (utf8_decode_replace s).
Proof.
  induction n as [|n IH]; intros s Hlen Hb.
  - destruct s; [split; [reflexivity|constructor]|cbn in Hlen; lia].
  - destruct s as [|ch s1]; [split; [reflexivity|constructor]|].
    apply Forall_cons_iff in Hb as [Hch Hb1]. cbn [List.length] in Hlen.
    assert (forall c (s' : list N),
               (List.length s' <= n)%nat -> Forall (fun c => (c <= 255)%N) s' ->
               (List.length s' < List.length (ch :: s1))%nat ->
               scalar_value c ->
               (List.length (c :: utf8_decode_replace s') <= List.length (ch :: s1))%nat
               /\ Forall scalar_value (c :: utf8_decode_replace s')) as Step.
    { intros c s' Hl Hb' Hlt Hc. destruct (IH s' Hl Hb') as [IH1 IH2].
      split; [cbn [List.length] in *; lia|now constructor]. }
    assert ((List.length [REPLACEMENT] <= List.length (ch :: s1))%nat
            /\ Forall scalar_value [REPLACEMENT]) as End.
    { split; [cbn; lia|repeat constructor; apply REPLACEMENT_scalar]. }
    cbn [utf8_decode_replace].
    destruct (ch <? 0x80)%N eqn:E1.
    { apply Step; [lia|assumption|cbn; lia|]. bool_facts. unfold scalar_value. lia. }
    destruct (ch <? 0xC2)%N eqn:E2.
    { apply Step; [lia|assumption|cbn; lia|apply REPLACEMENT_scalar]. }
    destruct (ch <? 0xE0)%N eqn:E3.
    { destruct s1 as [|ch2 s2]; [exact End|].
      apply Forall_cons_iff in Hb1 as [Hch2 Hb2]. cbn [List.length] in Hlen.
      destruct (is_continuation_byte ch2) eqn:C2.
      - apply Step; [lia|assumption|cbn; lia|].
        unfold is_continuation_byte in C2. bool_facts.
        unfold scalar_value. rewrite !N.shiftl_mul_pow2.
        change (2 ^ 6)%N with 64%N. lia.
      - apply Step; [cbn; lia|now constructor|cbn; lia|apply REPLACEMENT_scalar]. }
    destruct (ch <? 0xF0)%N eqn:E4.
    { destruct s1 as [|ch2 s2]; [exact End|].
      apply Forall_cons_iff in Hb1 as [Hch2 Hb2]. cbn [List.length] in Hlen.
      destruct (negb (is_continuation_byte ch2)
                || (if ch2 <? 0xA0 then ch =? 0xE0 else ch =? 0xED))%N eqn:C2.
      { apply Step; [cbn; lia|now constructor|cbn; lia|apply REPLACEMENT_scalar]. }
      destruct s2 as [|ch3 s3]; [exact End|].
      apply Forall_cons_iff in Hb2 as [Hch3 Hb3]. cbn [List.length] in Hlen.
      destruct (is_continuation_byte ch3) eqn:C3.
      - apply Step; [lia|assumption|cbn; lia|].
        unfold is_continuation_byte in *. bool_facts;
          unfold scalar_value; rewrite !N.shiftl_mul_pow2;
          change (2 ^ 6)%N with 64%N; change (2 ^ 12)%N with 4096%N; lia.
      - apply Step; [cbn; lia|now constructor|cbn; lia|apply REPLACEMENT_scalar]. }
    destruct (ch <? 0xF5)%N eqn:E5.
    { destruct s1 as [|ch2 s2]; [exact End|].
      apply Forall_cons_iff in Hb1 as [Hch2 Hb2]. cbn [List.length] in Hlen.
      destruct (negb (is_continuation_byte ch2)
                || (if ch2 <? 0x90 then ch =? 0xF0 else ch =? 0xF4))%N eqn:C2.
      { apply Step; [cbn; lia|now constructor|cbn; lia|apply REPLACEMENT_scalar]. }
      destruct s2 as [|ch3 s3]; [exact End|].
      apply Forall_cons_iff in Hb2 as [Hch3 Hb3]. cbn [List.length] in Hlen.
      destruct (negb (is_continuation_byte ch3)) eqn:C3.
      { apply Step; [cbn; lia|now constructor|cbn; lia|apply REPLACEMENT_scalar]. }
      destruct s3 as [|ch4 s4]; [exact End|].
      apply Forall_cons_iff in Hb3 as [Hch4 Hb4]. cbn [List.length] in Hlen.
      destruct (is_continuation_byte ch4) eqn:C4.
      - apply Step; [lia|assumption|cbn; lia|].
        unfold is_continuation_byte in *. bool_facts;
          unfold scalar_value; rewrite !N.shiftl_mul_pow2;
          change (2 ^ 6)%N with 64%N; change (2 ^ 12)%N with 4096%N;
          change (2 ^ 18)%N with 262144%N; lia.
      - apply Step; [cbn; lia|now constructor|cbn; lia|apply REPLACEMENT_scalar]. }
    apply Step; [lia|assumption|cbn; lia|apply REPLACEMENT_scalar].
Qed.

(** Octets below 0x80 decode to themselves. *)
Lemma utf8_decode_replace_ascii (s : list N) :
  Forall (fun c => (c < 0x80)%N) s -> utf8_decode_replace s = s.
Proof.
  induction 1 as [|c s Hc Hs IH]; [reflexivity|].
  cbn [utf8_decode_replace]. apply N.ltb_lt in Hc. now rewrite Hc, IH.
Qed.

(** An octet that cannot start a sequence is replaced by U+FFFD, and
    decoding goes on behind it. *)
Lemma utf8_decode_replace_invalid_start (c : N) (s : list N) :
  (0x80 <= c < 0xC2 \/ 0xF5 <= c)%N ->
  utf8_decode_replace (c :: s) = REPLACEMENT :: utf8_decode_replace s.
Proof.
  intros H. cbn [utf8_decode_replace].
  destruct (c <? 0x80)%N eqn:E1; bool_facts; [lia|].
  destruct (c <? 0xC2)%N eqn:E2; bool_facts; [reflexivity|].
  destruct (c <? 0xE0)%N eqn:E3; bool_facts; [lia|].
  destruct (c <? 0xF0)%N eqn:E4; bool_facts; [lia|].
  destruct (c <? 0xF5)%N eqn:E5; bool_facts; [lia|reflexivity].
Qed.

Lemma bytes_bounded (data : bytes) :
  Forall (fun c => (c <= 255)%N) (map Byte.to_N data).
Proof.
  apply Forall_forall. intros c Hc. apply in_map_iff in Hc as (x & <- & _).
  apply Byte.to_N_bounded.
Qed.


(** ** The debug rendering *)

(** C8 (rendering).  The rendering of a message is
    TopicMessage(consensus_timestamp=.., sequence_number=..,
    contents='..', chunk_count=.., transaction_id=..): the contents field
    shows the first 40 code points of the decoded contents, followed by
    three dots exactly when the decoded contents are longer than 40; the
    chunk count is the number of chunks; the transaction id is its text,
    or None.  Decoding is total: it yields at most one code point per
    octet and scalar values only, an octet that cannot start a sequence
    becoming U+FFFD, and it returns ASCII contents unchanged. *)
Theorem str_rendering :
  forall self : TopicMessage,
    __str__ self
    = u "TopicMessage(consensus_timestamp="
      ++ datetime_str (consensus_timestamp self)
      ++ u ", sequence_number=" ++ u (str_int (sequence_number self))
      ++ u ", contents='"
      ++ firstn 40 (decode_utf8_replace (contents self))
      ++ (if (40 <? List.length (decode_utf8_replace (contents self)))%nat
          then u "..." else [])
      ++ u "', chunk_count="
      ++ u (str_int (Z.of_nat (List.length (chunks self))))
      ++ u ", transaction_id="
      ++ match transaction_id self with
         | Some t => u t
         | None => u "None"
         end
      ++ u ")"
    /\ startswith (__str__ self) (u "TopicMessage(") = true
    /\ (List.length (firstn 40 (decode_utf8_replace (contents self))) <= 40)%nat
    /\ (List.length (decode_utf8_replace (contents self))
        <= List.length (contents self))%nat
    /\ Forall scalar_value (decode_utf8_replace (contents self))
    /\ (forall (c : byte) (data : bytes),
           (0x80 <= Byte.to_N c < 0xC2 \/ 0xF5 <= Byte.to_N c)%N ->
           decode_utf8_replace (c :: data) = REPLACEMENT :: decode_utf8_replace data)
    /\ (Forall (fun c => (Byte.to_N c < 0x80)%N) (contents self) ->
        decode_utf8_replace (contents self) = map Byte.to_N (contents self)).
Proof.
  intros self.
  destruct (utf8_decode_replace_sound (List.length (map Byte.to_N (contents self)))
              (map Byte.to_N (contents self)) (le_n _) (bytes_bounded _))
    as [Hlen Hscalar].
  rewrite length_map in Hlen.
  repeat split.
  - apply firstn_le_length.
  - exact Hlen.
  - exact Hscalar.
  - intros c data H. unfold decode_utf8_replace. cbn [map].
    now apply utf8_decode_replace_invalid_start.
  - intros H. unfold decode_utf8_replace. apply utf8_decode_replace_ascii.
    apply Forall_forall. intros c Hc. apply in_map_iff in Hc as (x & <- & Hx).
    rewrite Forall_forall in H. now apply H.
Qed.

(** * Further properties of the module *)

(** ** [of_many] and [from_proto] *)

(** X1.  [of_many] raises [IndexError] exactly on the empty list: there
    its read of the last sorted record fails, and on a non-empty list no
    [IndexError] is raised. *)
Theorem of_many_IndexError_iff_empty :
  forall responses : list ConsensusTopicResponse,
    of_many responses = Raise (IndexError "list index out of range")
    <-> responses = [].
Proof.
  intros responses. split; [|now intros ->].
  destruct responses as [|r rs]; [reflexivity|]. rewrite of_many_eq.
  destruct (existsb HasField_initialTransactionID (r :: rs)); [discriminate|].
  destruct (last_item_nonempty (sorted chunkInfo_number (r :: rs)))
    as (s & z & ->); [apply sorted_nonempty; discriminate|].
  rewrite last_item_app. discriminate.
Qed.

(** X2.  Whenever [from_proto] returns a message, its argument was a list
    of two or more records, or a one-element list with chunking enabled;
    the message is the one [of_many] returns on the list; no record of
    the list carries an initial-transaction descriptor; and the message
    has no transaction id. *)
Theorem from_proto_returns_only_via_of_many :
  forall (inp : ProtoInput) (chunking_enabled : bool) (m : TopicMessage),
    from_proto inp chunking_enabled = Ok m ->
    exists responses,
      inp = Responses responses
      /\ ((2 <= List.length responses)%nat
          \/ (List.length responses = 1%nat /\ chunking_enabled = true))
      /\ of_many responses = Ok m
      /\ (forall r, In r responses -> chunkInfo_initialTransactionID r = None)
      /\ transaction_id m = None.
Proof.
  intros inp ce m H.
  destruct (from_proto_Ok_inv _ _ _ H) as (responses & -> & Hlen & Hm).
  exists responses. split; [reflexivity|]. split; [exact Hlen|].
  split; [exact Hm|].
  destruct (of_many_Ok_inv _ _ Hm) as (Hnone & last_r & _ & ->).
  split; [now apply no_descriptor_existsb|reflexivity].
Qed.

(** X3.  On a collection of two or more records the chunking flag has no
    effect: both calls are the call of [of_many]. *)
Theorem from_proto_flag_irrelevant :
  forall responses : list ConsensusTopicResponse,
    (2 <= List.length responses)%nat ->
    from_proto (Responses responses) true = of_many responses
    /\ from_proto (Responses responses) false = of_many responses.
Proof.
  intros [|r [|r' rs]] H; cbn [List.length] in H; try lia.
  split; reflexivity.
Qed.

(** X4.  The chunks of the message [of_many] returns are the descriptors
    of the input records, each once, in some order; there are as many
    chunks as records, whether or not position indices repeat. *)
Theorem of_many_chunks_permutation :
  forall (responses : list ConsensusTopicResponse) (m : TopicMessage),
    of_many responses = Ok m ->
    Permutation (chunks m) (map TopicMessageChunk_init responses)
    /\ List.length (chunks m) = List.length responses.
Proof.
  intros responses m Hm.
  destruct (of_many_Ok_inv _ _ Hm) as (_ & last_r & _ & ->). cbn [chunks].
  assert (Permutation (map TopicMessageChunk_init (sorted chunkInfo_number responses))
            (map TopicMessageChunk_init responses)) as Hp
    by (apply Permutation_map, sorted_perm).
  split; [exact Hp|].
  rewrite (Permutation_length Hp). apply length_map.
Qed.

(** X5.  The contents of the message [of_many] returns are the payloads
    of the input records put end to end, each payload whole and once, and
    the content sizes of the chunks, in their order, are the lengths of
    these segments. *)
Theorem of_many_contents_segments :
  forall (responses : list ConsensusTopicResponse) (m : TopicMessage),
    of_many responses = Ok m ->
    exists segments : list bytes,
      contents m = List.concat segments
      /\ map (@List.length byte) segments = map content_size (chunks m)
      /\ Permutation segments (map message responses).
Proof.
  intros responses m Hm.
  destruct (of_many_Ok_inv _ _ Hm) as (_ & last_r & _ & ->).
  cbn [chunks contents].
  exists (map message (sorted chunkInfo_number responses)).
  split; [reflexivity|]. split.
  - rewrite !map_map. reflexivity.
  - apply Permutation_map, sorted_perm.
Qed.

(** X6.  In the message [of_many] returns, the consensus timestamp,
    running hash and sequence number of the message are those of its last
    chunk. *)
Theorem of_many_metadata_is_last_chunk :
  forall (responses : list ConsensusTopicResponse) (m : TopicMessage),
    of_many responses = Ok m ->
    exists cs c,
      chunks m = cs ++ [c]
      /\ chunk_consensus_timestamp c = consensus_timestamp m
      /\ chunk_running_hash c = running_hash m
      /\ chunk_sequence_number c = sequence_number m.
Proof.
  intros responses m Hm.
  destruct (of_many_Ok_inv _ _ Hm) as (_ & last_r & Hl & ->).
  destruct (sorted chunkInfo_number responses) as [|x s'] eqn:Es;
    [discriminate|].
  destruct (last_item_nonempty (x :: s')) as (s & z & E); [discriminate|].
  rewrite E, last_item_app in Hl. inversion Hl; subst z.
  cbn [chunks consensus_timestamp running_hash sequence_number].
  exists (map TopicMessageChunk_init s), (TopicMessageChunk_init last_r).
  rewrite E, map_app. repeat split.
Qed.

Lemma of_many_on_ascending (responses : list ConsensusTopicResponse)
    (m : TopicMessage) :
  ascending chunkInfo_number responses ->
  of_many responses = Ok m ->
  exists last_r,
    last_item responses = Ok last_r
    /\ m = mkTopicMessage
             (_to_datetime (consensusTimestamp last_r))
             (payloads responses)
             (runningHash last_r)
             (sequenceNumber last_r)
             (map TopicMessageChunk_init responses)
             None.
Proof.
  intros Hasc Hm. destruct (of_many_Ok_inv _ _ Hm) as (_ & last_r & Hl & ->).
  rewrite (sorted_of_ascending _ _ Hasc) in *. now exists last_r.
Qed.

(** X7.  On records that arrive in non-decreasing order of position index
    the message [of_many] returns is plain concatenation: contents and
    chunks follow the arrival order, and the metadata are those of the
    last record. *)
Theorem of_many_in_order :
  forall (responses : list ConsensusTopicResponse) (m : TopicMessage),
    ascending chunkInfo_number responses ->
    of_many responses = Ok m ->
    contents m = payloads responses
    /\ chunks m = map TopicMessageChunk_init responses
    /\ exists last_r,
        last_item responses = Ok last_r
        /\ consensus_timestamp m = _to_datetime (consensusTimestamp last_r)
        /\ running_hash m = runningHash last_r
        /\ sequence_number m = sequenceNumber last_r.
Proof.
  intros responses m Hasc Hm.
  destruct (of_many_on_ascending _ _ Hasc Hm) as (last_r & Hl & ->).
  split; [reflexivity|]. split; [reflexivity|]. exists last_r. repeat split.
  exact Hl.
Qed.

(** X8.  Reassembly through [from_proto]: when the records of a list in
    strictly increasing order of position index arrive in any order and
    [from_proto] returns a message, the message has the payloads of the
    ordered list put end to end as contents, its descriptors as chunks,
    the metadata of its last record, and no transaction id. *)
Theorem from_proto_reassembles :
  forall (ordered arrival : list ConsensusTopicResponse) (chunking_enabled : bool)
         (m : TopicMessage),
    strictly_ascending chunkInfo_number ordered ->
    Permutation ordered arrival ->
    from_proto (Responses arrival) chunking_enabled = Ok m ->
    contents m = payloads ordered
    /\ chunks m = map TopicMessageChunk_init ordered
    /\ transaction_id m = None
    /\ exists last_r,
        last_item ordered = Ok last_r
        /\ consensus_timestamp m = _to_datetime (consensusTimestamp last_r)
        /\ running_hash m = runningHash last_r
        /\ sequence_number m = sequenceNumber last_r.
Proof.
  intros ordered arrival ce m Hs Hp H.
  destruct (from_proto_Ok_inv _ _ _ H) as (rs & [= <-] & _ & Hm).
  assert (of_many arrival = of_many ordered) as E.
  { rewrite !of_many_eq.
    rewrite (sorted_permutation_invariant chunkInfo_number ordered arrival
               (strictly_ascending_NoDup _ _ Hs) Hp).
    now rewrite (existsb_Permutation _ _ _ Hp). }
  rewrite E in Hm.
  destruct (of_many_on_ascending _ _ (strictly_ascending_ascending _ _ Hs) Hm)
    as (last_r & Hl & ->).
  split; [reflexivity|]. split; [reflexivity|]. split; [reflexivity|].
  exists last_r. repeat split. exact Hl.
Qed.

(** X9.  [of_many] makes no completeness check: it never reads the
    declared totals, so changing them in any way leaves its result
    unchanged. *)
Theorem of_many_ignores_total :
  forall (t : ConsensusTopicResponse -> Z) (responses : list ConsensusTopicResponse),
    of_many (map (fun r => with_total (t r) r) responses) = of_many responses.
Proof.
  intros t responses. set (g := fun r => with_total (t r) r).
  assert (forall r, chunkInfo_number (g r) = chunkInfo_number r) as Hkey.
  { intros r. unfold g, with_total, chunkInfo_number. cbn.
    now destruct (chunkInfo r). }
  assert (forall r, HasField_initialTransactionID (g r)
                    = HasField_initialTransactionID r) as Hhas.
  { intros r. unfold g, with_total, HasField_initialTransactionID. cbn.
    now destruct (chunkInfo r). }
  assert (forall l, existsb HasField_initialTransactionID (map g l)
                    = existsb HasField_initialTransactionID l) as Hex.
  { induction l as [|r l IH]; [reflexivity|].
    cbn [map existsb]. now rewrite Hhas, IH. }
  assert (forall l, payloads (map g l) = payloads l) as Hpay.
  { intros l. unfold payloads. now rewrite map_map. }
  assert (forall l, map TopicMessageChunk_init (map g l) = map TopicMessageChunk_init l)
    as Hinit.
  { intros l. now rewrite map_map. }
  rewrite !of_many_eq, Hex, (sorted_map chunkInfo_number g responses Hkey).
  rewrite last_item_map, Hpay, Hinit.
  destruct (existsb HasField_initialTransactionID responses); [reflexivity|].
  now destruct (last_item (sorted chunkInfo_number responses)).
Qed.

(** ** The cut of the rendering *)

Lemma rendering_around_eq (self : TopicMessage) :
  __str__ self
  = rendering_around self
      (firstn 40 (decode_utf8_replace (contents self))
       ++ (if (40 <? List.length (decode_utf8_replace (contents self)))%nat
           then u "..." else [])).
Proof.
  unfold __str__, rendering_around. cbv zeta.
  rewrite <- !app_assoc. reflexivity.
Qed.

(** X11.  Contents of at most 40 octets are rendered whole, after
    decoding, and without dots; ASCII contents of more than 40 octets are
    rendered as their first 40 characters followed by three dots. *)
Theorem str_contents_cut :
  forall self : TopicMessage,
    ((List.length (contents self) <= 40)%nat ->
     __str__ self = rendering_around self (decode_utf8_replace (contents self)))
    /\ (Forall (fun c => (Byte.to_N c < 0x80)%N) (contents self) ->
        (40 < List.length (contents self))%nat ->
        __str__ self
        = rendering_around self
            (map Byte.to_N (firstn 40 (contents self)) ++ u "...")).
Proof.
  intros self. rewrite rendering_around_eq. split.
  - intros Hlen.
    destruct (utf8_decode_replace_sound (List.length (map Byte.to_N (contents self)))
                (map Byte.to_N (contents self)) (le_n _) (bytes_bounded _))
      as [Hdec _].
    rewrite length_map in Hdec. fold (decode_utf8_replace (contents self)) in Hdec.
    rewrite firstn_all2 by lia.
    replace (40 <? List.length (decode_utf8_replace (contents self)))%nat
      with false by (symmetry; apply Nat.ltb_ge; lia).
    now rewrite app_nil_r.
  - intros Hascii Hlen.
    assert (decode_utf8_replace (contents self) = map Byte.to_N (contents self)) as ->.
    { unfold decode_utf8_replace. apply utf8_decode_replace_ascii.
      apply Forall_forall. intros c Hc. apply in_map_iff in Hc as (x & <- & Hx).
      rewrite Forall_forall in Hascii. now apply Hascii. }
    rewrite length_map, firstn_map.
    replace (40 <? List.length (contents self))%nat
      with true by (symmetry; apply Nat.ltb_lt; lia).
    reflexivity.
Qed.

End TopicMessage.

Arguments consensus_timestamp {datetime} _.
Arguments contents {datetime} _.
Arguments running_hash {datetime} _.
Arguments sequence_number {datetime} _.
Arguments chunks {datetime} _.
Arguments transaction_id {datetime} _.
Arguments of_single {datetime} utcfromtimestamp response.
Arguments of_many {datetime} utcfromtimestamp responses.
Arguments from_proto {datetime} utcfromtimestamp response_or_responses chunking_enabled.
Arguments __str__ {datetime} datetime_str self.
Arguments sum_content_size {datetime} chunks.

Arguments TopicMessageChunk_init {datetime} utcfromtimestamp response.
Arguments chunk_consensus_timestamp {datetime} _.
Arguments content_size {datetime} _.
Arguments chunk_running_hash {datetime} _.
Arguments chunk_sequence_number {datetime} _.
Arguments rendering_around {datetime} datetime_str self shown.

(** ** Instances on the sample values *)

(** C1 at the chunks 2, 1, 3 and their arrangement 1, 2, 3. *)
Lemma of_many_order_independent_witness :
  exists m,
    of_many sample_utcfromtimestamp
      [sample_chunk 2 "CD" None; sample_chunk 1 "AB" None; sample_chunk 3 "EF" None]
    = Ok m
    /\ of_many sample_utcfromtimestamp
         [sample_chunk 1 "AB" None; sample_chunk 2 "CD" None; sample_chunk 3 "EF" None]
       = Ok m.
Proof.
  apply (proj1 (proj2 (of_many_order_independent sample_datetime
                         sample_utcfromtimestamp))).
  - discriminate.
  - cbn. repeat constructor; cbn; intuition discriminate.
  - apply perm_swap.
  - intros r [<-|[<-|[<-|[]]]]; reflexivity.
Defined.

(** C3 at the chunks 2, 1, 3, read in reverse arrival order. *)
Lemma of_many_metadata_from_highest_witness :
  exists m,
    of_many sample_utcfromtimestamp
      [sample_chunk 3 "EF" None; sample_chunk 1 "AB" None; sample_chunk 2 "CD" None]
    = Ok m
    /\ consensus_timestamp m = (1700000003, 500)
    /\ running_hash m = b "hashEF"
    /\ sequence_number m = 43.
Proof.
  eexists. split; [vm_compute; reflexivity|].
  apply (of_many_metadata_from_highest sample_datetime sample_utcfromtimestamp
           [sample_chunk 2 "CD" None; sample_chunk 1 "AB" None; sample_chunk 3 "EF" None]
           [sample_chunk 3 "EF" None; sample_chunk 1 "AB" None; sample_chunk 2 "CD" None]
           (sample_chunk 3 "EF" None)).
  - right. right. left. reflexivity.
  - cbn. repeat constructor; cbn; intuition discriminate.
  - intros r' [<-|[<-|[<-|[]]]]; cbn; lia.
  - apply (Permutation_rev
             [sample_chunk 2 "CD" None; sample_chunk 1 "AB" None;
              sample_chunk 3 "EF" None]).
  - vm_compute. reflexivity.
Defined.

(** C4 at two chunks without a descriptor. *)
Lemma of_many_transaction_id_witness :
  exists m,
    of_many sample_utcfromtimestamp
      [sample_chunk 1 "AB" None; sample_chunk 2 "CD" None]
    = Ok m
    /\ transaction_id m = None.
Proof.
  eexists. split; [vm_compute; reflexivity|].
  apply (proj1 (of_many_transaction_id sample_datetime sample_utcfromtimestamp)
           [sample_chunk 1 "AB" None; sample_chunk 2 "CD" None]).
  vm_compute. reflexivity.
Defined.

(** C5 at the message assembled from the chunks 2, 1, 3. *)
Lemma contents_length_conservation_witness :
  exists m,
    of_many sample_utcfromtimestamp
      [sample_chunk 2 "CD" None; sample_chunk 1 "AB" None; sample_chunk 3 "EF" None]
    = Ok m
    /\ List.length (contents m) = sum_content_size (chunks m).
Proof.
  eexists. split; [vm_compute; reflexivity|].
  apply (contents_length_conservation sample_datetime sample_utcfromtimestamp).
  left.
  exists [sample_chunk 2 "CD" None; sample_chunk 1 "AB" None; sample_chunk 3 "EF" None].
  vm_compute. reflexivity.
Defined.

(** C9 at a two-element collection with chunking enabled. *)
Lemma of_many_in_bounds_witness :
  is_IndexError
    (from_proto sample_utcfromtimestamp
       (Responses [sample_chunk 2 "CD" None; sample_chunk 1 "AB" None]) true)
  = false
  /\ from_proto sample_utcfromtimestamp
       (Responses [sample_chunk 2 "CD" None; sample_chunk 1 "AB" None]) true
     = of_many sample_utcfromtimestamp
         [sample_chunk 2 "CD" None; sample_chunk 1 "AB" None]
  /\ exists last_r,
      last_item
        (sorted chunkInfo_number [sample_chunk 2 "CD" None; sample_chunk 1 "AB" None])
      = Ok last_r.
Proof.
  destruct (of_many_in_bounds sample_datetime sample_utcfromtimestamp
              [sample_chunk 2 "CD" None; sample_chunk 1 "AB" None] true)
    as (Hno & _ & Hroute & Hin).
  split; [exact Hno|]. split.
  - apply Hroute; [discriminate|now left].
  - apply Hin. discriminate.
Defined.

(** C10 at two records without chunk info: both take index 0, the
    payloads stay in arrival order and the metadata are those of the
    second. *)
Lemma of_many_stable_witness :
  exists m,
    of_many sample_utcfromtimestamp [sample_plain "cd" 2; sample_plain "ab" 1] = Ok m
    /\ contents m = b "cdab"
    /\ sequence_number m = 1.
Proof.
  destruct (of_many sample_utcfromtimestamp
              [sample_plain "cd" 2; sample_plain "ab" 1]) as [m|e] eqn:E;
    [|vm_compute in E; discriminate E].
  destruct (of_many_stable sample_datetime sample_utcfromtimestamp
              [sample_plain "cd" 2; sample_plain "ab" 1] m E)
    as (_ & _ & _ & Hall & Hlast).
  exists m. split; [reflexivity|]. split.
  - apply Hall. intros r r' [<-|[<-|[]]] [<-|[<-|[]]]; reflexivity.
  - apply (Hlast [sample_plain "cd" 2] (sample_plain "ab" 1) []).
    + reflexivity.
    + intros r' [<-|[]]. cbn. lia.
    + intros r' [].
Defined.

(** C6 at a record without chunk info, chunking disabled: the call is the
    call of [of_single], and raises. *)
Lemma from_proto_single_record_witness :
  from_proto sample_utcfromtimestamp (Response (sample_plain "hi" 7)) false
  = of_single sample_utcfromtimestamp (sample_plain "hi" 7)
  /\ of_single sample_utcfromtimestamp (sample_plain "hi" 7)
     = Raise (AttributeError "sequence_number").
Proof.
  apply (proj2 (from_proto_single_record sample_datetime sample_utcfromtimestamp
                  (sample_plain "hi" 7) false)).
  intros (H & _). discriminate H.
Defined.

(** C2 at a record without chunk info: the one-element collection is
    assembled when chunking is enabled, the single record is not. *)
Lemma one_element_collection_and_single_record_witness :
  (exists m,
      from_proto sample_utcfromtimestamp (Responses [sample_plain "hi" 7]) true = Ok m
      /\ contents m = b "hi" /\ sequence_number m = 7)
  /\ from_proto sample_utcfromtimestamp (Response (sample_plain "hi" 7)) true
     = Raise (AttributeError "sequence_number").
Proof.
  destruct (one_element_collection_and_single_record sample_datetime
              sample_utcfromtimestamp (sample_plain "hi" 7))
    as (Hmany & Htrue & _ & _ & Hsingle).
  split.
  - eexists. split; [rewrite Htrue; exact (Hmany eq_refl)|]. split; reflexivity.
  - apply Hsingle. cbn. lia.
Defined.

(** C8 at contents that are ASCII, and at the same contents behind an
    octet that cannot start a sequence. *)
Lemma str_rendering_witness :
  decode_utf8_replace (b "hi") = map Byte.to_N (b "hi")
  /\ decode_utf8_replace (xff :: b "hi") = REPLACEMENT :: decode_utf8_replace (b "hi").
Proof.
  destruct (str_rendering string u
              {| consensus_timestamp := "2023-11-14 22:13:20"%string;
                 contents := b "hi";
                 running_hash := b "hash";
                 sequence_number := 7;
                 chunks := [];
                 transaction_id := None |})
    as (_ & _ & _ & _ & _ & Hstart & Hascii).
  split.
  - apply Hascii. cbn. repeat constructor.
  - apply Hstart. right. cbn. lia.
Defined.

(** ** Instances of the further properties *)

(** X2 at two chunks, chunking disabled. *)
Lemma from_proto_returns_only_via_of_many_witness :
  exists m,
    from_proto sample_utcfromtimestamp
      (Responses [sample_chunk 2 "CD" None; sample_chunk 1 "AB" None]) false
    = Ok m
    /\ of_many sample_utcfromtimestamp
         [sample_chunk 2 "CD" None; sample_chunk 1 "AB" None]
       = Ok m
    /\ transaction_id m = None.
Proof.
  destruct (from_proto sample_utcfromtimestamp
              (Responses [sample_chunk 2 "CD" None; sample_chunk 1 "AB" None])
              false) as [m|e] eqn:E;
    [|vm_compute in E; discriminate E].
  destruct (from_proto_returns_only_via_of_many sample_datetime
              sample_utcfromtimestamp
              (Responses [sample_chunk 2 "CD" None; sample_chunk 1 "AB" None])
              false m E)
    as (responses & [= <-] & _ & Hm & _ & Ht).
  exists m. split; [reflexivity|]. split; [exact Hm|exact Ht].
Defined.

(** X3 at two chunks. *)
Lemma from_proto_flag_irrelevant_witness :
  from_proto sample_utcfromtimestamp
    (Responses [sample_chunk 2 "CD" None; sample_chunk 1 "AB" None]) true
  = of_many sample_utcfromtimestamp
      [sample_chunk 2 "CD" None; sample_chunk 1 "AB" None]
  /\ from_proto sample_utcfromtimestamp
       (Responses [sample_chunk 2 "CD" None; sample_chunk 1 "AB" None]) false
     = of_many sample_utcfromtimestamp
         [sample_chunk 2 "CD" None; sample_chunk 1 "AB" None].
Proof.
  apply (from_proto_flag_irrelevant sample_datetime sample_utcfromtimestamp).
  cbn. lia.
Defined.

(** X4 at two chunks that share the position index 2. *)
Lemma of_many_chunks_permutation_witness :
  exists m,
    of_many sample_utcfromtimestamp
      [sample_chunk 2 "CD" None; sample_chunk 2 "AB" None] = Ok m
    /\ Permutation (chunks m)
         (map (TopicMessageChunk_init sample_utcfromtimestamp)
            [sample_chunk 2 "CD" None; sample_chunk 2 "AB" None])
    /\ List.length (chunks m) = 2%nat.
Proof.
  eexists. split; [vm_compute; reflexivity|].
  apply (of_many_chunks_permutation sample_datetime sample_utcfromtimestamp
           [sample_chunk 2 "CD" None; sample_chunk 2 "AB" None]).
  vm_compute. reflexivity.
Defined.

(** X5 at the chunks 2, 1, 3. *)
Lemma of_many_contents_segments_witness :
  exists (m : TopicMessage sample_datetime) (segments : list bytes),
    of_many sample_utcfromtimestamp
      [sample_chunk 2 "CD" None; sample_chunk 1 "AB" None; sample_chunk 3 "EF" None]
    = Ok m
    /\ contents m = List.concat segments
    /\ map (@List.length byte) segments = map content_size (chunks m)
    /\ Permutation segments [b "CD"; b "AB"; b "EF"].
Proof.
  destruct (of_many sample_utcfromtimestamp
              [sample_chunk 2 "CD" None; sample_chunk 1 "AB" None;
               sample_chunk 3 "EF" None]) as [m|e] eqn:E;
    [|vm_compute in E; discriminate E].
  destruct (of_many_contents_segments sample_datetime sample_utcfromtimestamp _ m E)
    as (segments & H1 & H2 & H3).
  exists m, segments. repeat split; assumption.
Defined.

(** X6 at the chunks 2, 1, 3. *)
Lemma of_many_metadata_is_last_chunk_witness :
  exists (m : TopicMessage sample_datetime) cs c,
    of_many sample_utcfromtimestamp
      [sample_chunk 2 "CD" None; sample_chunk 1 "AB" None; sample_chunk 3 "EF" None]
    = Ok m
    /\ chunks m = cs ++ [c]
    /\ chunk_consensus_timestamp c = consensus_timestamp m
    /\ chunk_running_hash c = running_hash m
    /\ chunk_sequence_number c = sequence_number m.
Proof.
  destruct (of_many sample_utcfromtimestamp
              [sample_chunk 2 "CD" None; sample_chunk 1 "AB" None;
               sample_chunk 3 "EF" None]) as [m|e] eqn:E;
    [|vm_compute in E; discriminate E].
  destruct (of_many_metadata_is_last_chunk sample_datetime sample_utcfromtimestamp _ m E)
    as (cs & c & H).
  exists m, cs, c. split; [reflexivity|exact H].
Defined.

(** X8 at the chunks 1, 2, 3 arriving as 2, 1, 3, chunking disabled. *)
Lemma from_proto_reassembles_witness :
  exists m,
    from_proto sample_utcfromtimestamp
      (Responses [sample_chunk 2 "CD" None; sample_chunk 1 "AB" None;
                  sample_chunk 3 "EF" None]) false
    = Ok m
    /\ contents m = b "ABCDEF"
    /\ transaction_id m = None.
Proof.
  destruct (from_proto sample_utcfromtimestamp
              (Responses [sample_chunk 2 "CD" None; sample_chunk 1 "AB" None;
                          sample_chunk 3 "EF" None]) false) as [m|e] eqn:E;
    [|vm_compute in E; discriminate E].
  destruct (from_proto_reassembles sample_datetime sample_utcfromtimestamp
              [sample_chunk 1 "AB" None; sample_chunk 2 "CD" None;
               sample_chunk 3 "EF" None]
              [sample_chunk 2 "CD" None; sample_chunk 1 "AB" None;
               sample_chunk 3 "EF" None]
              false m)
    as (Hc & _ & Ht & _).
  - repeat constructor; cbn; lia.
  - apply perm_swap.
  - exact E.
  - exists m. split; [reflexivity|]. split; [exact Hc|exact Ht].
Defined.

(** X7 at two records without chunk info. *)
Lemma of_many_in_order_witness :
  exists m,
    of_many sample_utcfromtimestamp [sample_plain "cd" 2; sample_plain "ab" 1] = Ok m
    /\ contents m = b "cdab"
    /\ chunks m
       = map (TopicMessageChunk_init sample_utcfromtimestamp)
           [sample_plain "cd" 2; sample_plain "ab" 1].
Proof.
  destruct (of_many sample_utcfromtimestamp
              [sample_plain "cd" 2; sample_plain "ab" 1]) as [m|e] eqn:E;
    [|vm_compute in E; discriminate E].
  destruct (of_many_in_order sample_datetime sample_utcfromtimestamp
              [sample_plain "cd" 2; sample_plain "ab" 1] m)
    as (Hc & Hk & _).
  - repeat constructor; cbn; lia.
  - exact E.
  - exists m. split; [reflexivity|]. split; [exact Hc|exact Hk].
Defined.

(** X11 at contents of two octets. *)
Lemma str_contents_cut_witness :
  __str__ (datetime := string) u
    {| consensus_timestamp := "2023-11-14 22:13:20"%string;
       contents := b "hi";
       running_hash := b "hash";
       sequence_number := 7;
       chunks := [];
       transaction_id := None |}
  = rendering_around (datetime := string) u
      {| consensus_timestamp := "2023-11-14 22:13:20"%string;
         contents := b "hi";
         running_hash := b "hash";
         sequence_number := 7;
         chunks := [];
         transaction_id := None |}
      (u "hi").
Proof.
  apply (proj1 (str_contents_cut string u
                  {| consensus_timestamp := "2023-11-14 22:13:20"%string;
                     contents := b "hi";
                     running_hash := b "hash";
                     sequence_number := 7;
                     chunks := [];
                     transaction_id := None |})).
  cbn. lia.
Defined.
